(** * go-pwnedpassword: a shallow embedding of [pwned.go]

    The package has two functions of interest: [getHash], which renders the
    SHA-1 digest of a password as upper-case hexadecimal text and cuts its
    first five characters off as the range key, and [IsPwned], which asks the
    range service for the candidates of that key and scans the answer.

    Go strings are immutable byte sequences; they are modelled by
    [String.string], whose characters are 8-bit [ascii] values.  Unsigned
    machine integers are modelled by [Z] with the wrap-around written out.
    A Go function that can panic returns an [outcome]. *)

From Stdlib Require Import ZArith List String Ascii Bool Lia Permutation.
Import ListNotations.

Local Open Scope string_scope.
Local Open Scope Z_scope.
Local Open Scope list_scope.

(** ** Run-time panics and the outcome of a call *)

Inductive panic : Type :=
| IndexOutOfRange (index len : nat)
| SliceBoundsOutOfRange (bound len : nat).

Inductive outcome (A : Type) : Type :=
| Returned (a : A)
| Panicked (p : panic).

Arguments Returned {A} a.
Arguments Panicked {A} p.

Definition bind {A B : Type} (m : outcome A) (k : A -> outcome B) : outcome B :=
  match m with
  | Returned a => k a
  | Panicked p => Panicked p
  end.

Notation "x <- m ;; k" := (bind m (fun x => k))
  (at level 61, m at next level, right associativity).

(** [l[i]] on a slice: a run-time panic when [i] is not below [len(l)]. *)
Fixpoint index_from {A : Type} (l : list A) (i : nat) (i0 len0 : nat) : outcome A :=
  match l, i with
  | [], _ => Panicked (IndexOutOfRange i0 len0)
  | a :: _, O => Returned a
  | _ :: l', S i' => index_from l' i' i0 len0
  end.

Definition index {A : Type} (l : list A) (i : nat) : outcome A :=
  index_from l i i (List.length l).

(** [s[lo:hi]] on a string: a run-time panic unless [lo <= hi <= len(s)]. *)
Definition slice (s : string) (lo hi : nat) : outcome string :=
  if (hi <=? String.length s)%nat then
    if (lo <=? hi)%nat then Returned (substring lo (hi - lo) s)
    else Panicked (SliceBoundsOutOfRange lo hi)
  else Panicked (SliceBoundsOutOfRange hi (String.length s)).

(** ** Unsigned machine integers

    A [byte], [uint32] or [uint64] is a [Z] reduced modulo its width. *)

Definition u8 (x : Z) : Z := x mod 2 ^ 8.
Definition u32 (x : Z) : Z := x mod 2 ^ 32.
Definition u64 (x : Z) : Z := x mod 2 ^ 64.

(** ** Bytes of a string *)

Definition byte_of_ascii (c : ascii) : Z := Z.of_N (N_of_ascii c).

Fixpoint bytes_of_string (s : string) : list Z :=
  match s with
  | EmptyString => []
  | String c s' => byte_of_ascii c :: bytes_of_string s'
  end.

(** ** crypto/sha1

    The digest of the Go standard library: five 32-bit words of state, a
    buffer of at most one 64-byte chunk, and the number of bytes written. *)

Module sha1.

Definition RotateLeft32 (x k : Z) : Z :=
  u32 (Z.lor (Z.shiftl x k) (Z.shiftr x (32 - k))).

Definition Size : nat := 20.
Definition chunk : nat := 64.

Definition init0 : Z := 0x67452301.
Definition init1 : Z := 0xEFCDAB89.
Definition init2 : Z := 0x98BADCFE.
Definition init3 : Z := 0x10325476.
Definition init4 : Z := 0xC3D2E1F0.

Definition _K0 : Z := 0x5A827999.
Definition _K1 : Z := 0x6ED9EBA1.
Definition _K2 : Z := 0x8F1BBCDC.
Definition _K3 : Z := 0xCA62C1D6.

(** The five chaining words [h0 .. h4]. *)
Definition words : Type := (Z * Z * Z * Z * Z)%type.

Record digest : Type := mkDigest {
  h : words;
  x : list Z;
  len : Z
}.

Definition New : digest :=
  {| h := (init0, init1, init2, init3, init4); x := []; len := 0 |}.

(** Big-endian loads and stores. *)
Definition BEUint32 (b0 b1 b2 b3 : Z) : Z :=
  Z.lor (Z.lor (Z.lor (Z.shiftl b0 24) (Z.shiftl b1 16)) (Z.shiftl b2 8)) b3.

Definition BEPutUint32 (v : Z) : list Z :=
  [u8 (Z.shiftr v 24); u8 (Z.shiftr v 16); u8 (Z.shiftr v 8); u8 v].

Definition BEPutUint64 (v : Z) : list Z :=
  [u8 (Z.shiftr v 56); u8 (Z.shiftr v 48); u8 (Z.shiftr v 40); u8 (Z.shiftr v 32);
   u8 (Z.shiftr v 24); u8 (Z.shiftr v 16); u8 (Z.shiftr v 8); u8 v].

(** The sixteen message words of a chunk. *)
Fixpoint load_words (p : list Z) : list Z :=
  match p with
  | b0 :: b1 :: b2 :: b3 :: p' => BEUint32 b0 b1 b2 b3 :: load_words p'
  | _ => []
  end.

(** The sixteen-word circular schedule [w], read and written at [i & 0xf]. *)
Definition w_get (w : list Z) (i : nat) : Z := nth (i mod 16) w 0.

Fixpoint set_nth (w : list Z) (i : nat) (v : Z) : list Z :=
  match w, i with
  | [], _ => []
  | _ :: w', O => v :: w'
  | a :: w', S i' => a :: set_nth w' i' v
  end.

Definition w_set (w : list Z) (i : nat) (v : Z) : list Z := set_nth w (i mod 16) v.

Definition f_round (i : nat) (b c d : Z) : Z :=
  if (i <? 20)%nat then Z.lor (Z.land b c) (Z.land (u32 (Z.lnot b)) d)
  else if (i <? 40)%nat then Z.lxor (Z.lxor b c) d
  else if (i <? 60)%nat then Z.lor (Z.land (Z.lor b c) d) (Z.land b c)
  else Z.lxor (Z.lxor b c) d.

Definition k_round (i : nat) : Z :=
  if (i <? 20)%nat then _K0
  else if (i <? 40)%nat then _K1
  else if (i <? 60)%nat then _K2
  else _K3.

(** One of the eighty rounds of [blockGeneric]. *)
Definition round (i : nat) (w : list Z) (v : words) : list Z * words :=
  let '(a, b, c, d, e) := v in
  let w' :=
    if (i <? 16)%nat then w
    else
      let tmp := Z.lxor (Z.lxor (Z.lxor (w_get w (i + 13)) (w_get w (i + 8)))
                                (w_get w (i + 2))) (w_get w i) in
      w_set w i (RotateLeft32 tmp 1) in
  let f := f_round i b c d in
  let t := u32 (RotateLeft32 a 5 + f + e + w_get w' i + k_round i) in
  (w', (t, a, RotateLeft32 b 30, c, d)).

Fixpoint rounds (n i : nat) (w : list Z) (v : words) : words :=
  match n with
  | O => v
  | S n' => let '(w', v') := round i w v in rounds n' (S i) w' v'
  end.

(** [block] on exactly one chunk. *)
Definition block (hs : words) (p : list Z) : words :=
  let '(h0, h1, h2, h3, h4) := hs in
  let '(a, b, c, d, e) := rounds 80 0 (load_words p) hs in
  (u32 (h0 + a), u32 (h1 + b), u32 (h2 + c), u32 (h3 + d), u32 (h4 + e)).

(** [Write], one byte at a time: the byte joins the buffer, and a full
    buffer is compressed and emptied. *)
Definition write_byte (d : digest) (b : Z) : digest :=
  let x' := x d ++ [b] in
  if (List.length x' =? chunk)%nat
  then {| h := block (h d) x'; x := []; len := u64 (len d + 1) |}
  else {| h := h d; x := x'; len := u64 (len d + 1) |}.

Definition Write (d : digest) (p : list Z) : digest := fold_left write_byte p d.

(** [checkSum]: pad with a one bit, zeros up to 56 bytes modulo 64 and the
    length in bits, then store the five words big-endian. *)
Definition padding (len : Z) : list Z :=
  let t := if len mod 64 <? 56 then 56 - len mod 64 else 64 + 56 - len mod 64 in
  0x80 :: repeat 0 (Z.to_nat t - 1) ++ BEPutUint64 (u64 (Z.shiftl len 3)).

Definition checkSum (d : digest) : list Z :=
  let d' := Write d (padding (len d)) in
  let '(h0, h1, h2, h3, h4) := h d' in
  BEPutUint32 h0 ++ BEPutUint32 h1 ++ BEPutUint32 h2 ++ BEPutUint32 h3 ++ BEPutUint32 h4.

(** [Sum(in)] appends the checksum of a copy of the digest to [in]. *)
Definition Sum (d : digest) (b : list Z) : list Z := b ++ checkSum d.

End sha1.

(** [io.WriteString(h, s)] writes the bytes of [s]. *)
Definition WriteString (d : sha1.digest) (s : string) : sha1.digest :=
  sha1.Write d (bytes_of_string s).

(** ** fmt and strings *)

Definition ldigits : string := "0123456789abcdefx".

Definition digit (n : Z) : ascii :=
  match String.get (Z.to_nat n) ldigits with
  | Some c => c
  | None => "?"%char
  end.

(** [fmt.Sprintf("%x", b)] on a byte slice: two lower-case digits per byte. *)
Fixpoint Sprintf_x (b : list Z) : string :=
  match b with
  | [] => EmptyString
  | c :: b' => String (digit (Z.shiftr c 4)) (String (digit (Z.land c 15)) (Sprintf_x b'))
  end.

(** [strings.ToUpper] on ASCII text: the letters [a .. z] lose 32. *)
Definition to_upper_byte (c : ascii) : ascii :=
  let n := N_of_ascii c in
  if ((97 <=? n) && (n <=? 122))%N then ascii_of_N (n - 32) else c.

Fixpoint ToUpper (s : string) : string :=
  match s with
  | EmptyString => EmptyString
  | String c s' => String (to_upper_byte c) (ToUpper s')
  end.

(** ** getHash *)

Record pwnedHash : Type := mkPwnedHash {
  Hash : string;
  Range : string
}.

Definition getHash (password : string) : outcome pwnedHash :=
  let h := sha1.New in
  let h := WriteString h password in
  let hash := Sprintf_x (sha1.Sum h []) in
  let hash := ToUpper hash in
  range <- slice hash 0 5 ;;
  Returned {| Hash := hash; Range := range |}.

(** ** strings.Index, strings.Count and strings.Split *)

Definition drop (n : nat) (s : string) : string :=
  substring n (String.length s - n) s.

(** Byte offset of the first occurrence of [sep] in [s]; Go's [-1] is [None]. *)
Fixpoint Index (s sep : string) : option nat :=
  if prefix sep s then Some O
  else match s with
       | EmptyString => None
       | String _ s' => option_map S (Index s' sep)
       end.

(** Number of non-overlapping occurrences of a non-empty [sep] in [s]. *)
Fixpoint count_from (fuel : nat) (s sep : string) : nat :=
  match fuel with
  | O => O
  | S fuel' =>
      match Index s sep with
      | None => O
      | Some i => S (count_from fuel' (drop (i + String.length sep) s) sep)
      end
  end.

Definition Count (s sep : string) : nat := count_from (String.length s) s sep.

(** The loop of [genSplit]: at most [n] cuts at the first occurrence of
    [sep], the rest of the string being the last element. *)
Fixpoint genSplit (n : nat) (s sep : string) : list string :=
  match n with
  | O => [s]
  | S n' =>
      match Index s sep with
      | None => [s]
      | Some m => substring 0 m s :: genSplit n' (drop (m + String.length sep) s) sep
      end
  end.

(** [strings.Split(s, sep)] for a non-empty separator, the only use this
    package makes of it. *)
Definition Split (s sep : string) : list string := genSplit (Count s sep) s sep.

Definition CRLF : string := String "013"%char (String "010"%char EmptyString).

(** ** strconv.ParseUint *)

Inductive num_err : Type := ErrSyntax | ErrRange.

(** The values of Go's [error] interface this package can return. *)
Inductive error : Type :=
| GetError (msg : string)
| ReadError (msg : string)
| NumError (Func Num : string) (Err : num_err)
| BaseError (Func Num : string) (base : Z)
| BitSizeError (Func Num : string) (bitSize : Z).

Definition syntaxError (fn str : string) : error := NumError fn str ErrSyntax.
Definition rangeError (fn str : string) : error := NumError fn str ErrRange.

Definition maxUint64 : Z := 2 ^ 64 - 1.

Definition lower (c : Z) : Z := Z.lor c 32.

(** The digit loop of [ParseUint]: [n] is the [uint64] accumulated so far. *)
Fixpoint parse_digits (s0 : string) (base cutoff maxVal : Z) (s : string) (n : Z)
  : Z * option error :=
  match s with
  | EmptyString => (n, None)
  | String ch s' =>
      let c := byte_of_ascii ch in
      let d :=
        if (48 <=? c) && (c <=? 57) then Some (c - 48)
        else if (97 <=? lower c) && (lower c <=? 122) then Some (lower c - 97 + 10)
        else None in
      match d with
      | None => (0, Some (syntaxError "ParseUint" s0))
      | Some d =>
          if d >=? base then (0, Some (syntaxError "ParseUint" s0))
          else if n >=? cutoff then (maxVal, Some (rangeError "ParseUint" s0))
          else
            let n := u64 (n * base) in
            let n1 := u64 (n + d) in
            if (n1 <? n) || (n1 >? maxVal)
            then (maxVal, Some (rangeError "ParseUint" s0))
            else parse_digits s0 base cutoff maxVal s' n1
      end
  end.

(** [strconv.ParseUint(s, base, bitSize)] for an explicit base [2 .. 36];
    base [0], which reads the base off a prefix, is not used here. *)
Definition ParseUint (s : string) (base bitSize : Z) : Z * option error :=
  if String.eqb s "" then (0, Some (syntaxError "ParseUint" s))
  else if negb ((2 <=? base) && (base <=? 36)) then (0, Some (BaseError "ParseUint" s base))
  else
    let bitSize' := if bitSize =? 0 then 64 else bitSize in
    if (bitSize' <? 0) || (bitSize' >? 64) then (0, Some (BitSizeError "ParseUint" s bitSize))
    else
      let cutoff := maxUint64 / base + 1 in
      let maxVal := 2 ^ bitSize' - 1 in
      parse_digits s base cutoff maxVal s 0.

(** ** The range service

    The only thing outside the program: [http.Get] on a URL either fails or
    gives a response whose body either reads to the end or fails on the way.
    The requests made are logged in the world. *)

Inductive body_reader : Type :=
| BodyBytes (b : string)
| BodyFails (err : string).

Inductive get_result : Type :=
| Response (body : body_reader)
| GetFails (err : string).

Definition network : Type := string -> get_result.

Record World : Type := mkWorld { requests : list string }.

Definition http_Get (net : network) (url : string) (w : World) : get_result * World :=
  (net url, {| requests := requests w ++ [url] |}).

Definition ReadAll (r : body_reader) : string * option error :=
  match r with
  | BodyBytes b => (b, None)
  | BodyFails err => (EmptyString, Some (ReadError err))
  end.

(** ** IsPwned *)

Record Result : Type := mkResult {
  Pwned : bool;
  TimesObserved : Z
}.

(** What [IsPwned] returns: a [*Result] and an [error], each possibly nil. *)
Definition returned : Type := (option Result * option error)%type.

(** The loop over the lines of the body. *)
Fixpoint scan (hash : pwnedHash) (lines : list string) : outcome returned :=
  match lines with
  | [] => Returned (Some {| Pwned := false; TimesObserved := 0 |}, None)
  | line :: lines' =>
      let components := Split line ":" in
      resultHash <- index components 0 ;;
      countStr <- index components 1 ;;
      if String.eqb (Range hash ++ resultHash)%string (Hash hash) then
        match ParseUint countStr 10 64 with
        | (_, Some err) => Returned (None, Some err)
        | (count, None) =>
            Returned (Some {| Pwned := true; TimesObserved := count |}, None)
        end
      else scan hash lines'
  end.

Definition range_url (hash : pwnedHash) : string :=
  ("https://api.pwnedpasswords.com/range/" ++ Range hash)%string.

(** [IsPwned].  The deferred [resp.Body.Close()] has no effect that the
    model observes.  A panic unwinds the call: no pair is returned. *)
Definition IsPwned (net : network) (password : string) (w : World)
  : outcome returned * World :=
  match getHash password with
  | Panicked p => (Panicked p, w)
  | Returned hash =>
      let '(resp, w) := http_Get net (range_url hash) w in
      match resp with
      | GetFails err => (Returned (None, Some (GetError err)), w)
      | Response body =>
          match ReadAll body with
          | (_, Some err) => (Returned (None, Some err), w)
          | (body, None) => (scan hash (Split body CRLF), w)
          end
      end
  end.

(** A service that answers every request with the same body. *)
Definition serve (body : string) : network := fun _ => Response (BodyBytes body).

Definition world0 : World := {| requests := [] |}.

(** ** Vocabulary of the statements *)

Fixpoint string_forall (f : ascii -> bool) (s : string) : bool :=
  match s with
  | EmptyString => true
  | String c s' => f c && string_forall f s'
  end.

Definition is_upper_hex (c : ascii) : bool :=
  let n := N_of_ascii c in
  (((48 <=? n) && (n <=? 57)) || ((65 <=? n) && (n <=? 70)))%N.

Definition is_digit (ch : ascii) : bool :=
  let c := byte_of_ascii ch in (48 <=? c) && (c <=? 57).

(** A base-10 numeral: one or more decimal digits, and its value. *)
Definition is_numeral (s : string) : bool :=
  negb (String.eqb s "") && string_forall is_digit s.

Fixpoint numeral_from (s : string) (acc : Z) : Z :=
  match s with
  | EmptyString => acc
  | String c s' => numeral_from s' (acc * 10 + (byte_of_ascii c - 48))
  end.

Definition numeral_value (s : string) : Z := numeral_from s 0.

(** A signed form: the text starts with a plus or a minus sign. *)
Definition is_signed (s : string) : bool :=
  match s with
  | String c _ => Ascii.eqb c "+" || Ascii.eqb c "-"
  | EmptyString => false
  end.

(** A line has a separator when a colon occurs in it; its suffix field is
    what precedes the first colon and its count field what follows it, up
    to the next colon. *)
Definition has_separator (line : string) : bool :=
  match Index line ":" with
  | Some _ => true
  | None => false
  end.

Definition suffix_field (line : string) : string := nth 0 (Split line ":") "".
Definition count_field (line : string) : string := nth 1 (Split line ":") "".

(** The test of the loop: range key and suffix field spell the full hash. *)
Definition matches (hash : pwnedHash) (line : string) : bool :=
  String.eqb (Range hash ++ suffix_field line)%string (Hash hash).

Definition is_byte (b : Z) : Prop := 0 <= b < 256.

(** The upper-case hexadecimal text of the digest of any input. *)
Definition hex_digest (password : string) : string :=
  ToUpper (Sprintf_x (sha1.Sum (WriteString sha1.New password) [])).

(** The fingerprint [getHash] returns: the digest text and its first five
    characters. *)
Definition fingerprint (password : string) : pwnedHash :=
  {| Hash := hex_digest password; Range := substring 0 5 (hex_digest password) |}.

(** The world after the one request of a lookup. *)
Definition asked (password : string) (w : World) : World :=
  {| requests := requests w ++ [range_url (fingerprint password)] |}.

(** The service answers the range request of [password] with [body]. *)
Definition answers (net : network) (password body : string) : Prop :=
  net (range_url (fingerprint password)) = Response (BodyBytes body).

(** Exactly one of a returned result and error is present. *)
Definition exactly_one (res : option Result) (err : option error) : Prop :=
  (res = None /\ err <> None) \/ (res <> None /\ err = None).

(** The constants of a parse in base 10 on 64 bits, and its two failures. *)
Definition cutoff10 : Z := maxUint64 / 10 + 1.
Definition maxVal64 : Z := 2 ^ 64 - 1.

Definition range_error (s0 : string) : Z * option error :=
  (maxVal64, Some (rangeError "ParseUint" s0)).

Definition syntax_error (s0 : string) : Z * option error :=
  (0, Some (syntaxError "ParseUint" s0)).

Definition found (count : Z) : returned :=
  (Some {| Pwned := true; TimesObserved := count |}, None).

Definition not_found : returned :=
  (Some {| Pwned := false; TimesObserved := 0 |}, None).

Definition failed (err : error) : returned := (None, Some err).

(** What the loop does with the first matching line. *)
Definition on_match (countStr : string) : returned :=
  match ParseUint countStr 10 64 with
  | (_, Some err) => failed err
  | (count, None) => found count
  end.

(** Lines that carry a separator and do not match are passed over. *)
Definition passed_over (hash : pwnedHash) (line : string) : Prop :=
  has_separator line = true /\ matches hash line = false.

(** Whatever the lines, a returned pair holds a result or an error, never
    both and never neither. *)
Definition one_of_two (r : returned) : Prop :=
  match r with
  | (Some _, None) | (None, Some _) => True
  | _ => False
  end.

(** The loop ends in exactly one of three ways: every line is passed over
    and nothing is found; or the first line not passed over lacks a colon and
    the loop panics; or that line matches and its count field decides. *)
Inductive scan_end (hash : pwnedHash) (lines : list string) : outcome returned -> Prop :=
| end_not_found :
    Forall (passed_over hash) lines ->
    scan_end hash lines (Returned not_found)
| end_panic (pre : list string) (line : string) (post : list string) :
    lines = pre ++ line :: post ->
    Forall (passed_over hash) pre ->
    has_separator line = false ->
    scan_end hash lines (Panicked (IndexOutOfRange 1 1))
| end_match (pre : list string) (line : string) (post : list string) :
    lines = pre ++ line :: post ->
    Forall (passed_over hash) pre ->
    has_separator line = true ->
    matches hash line = true ->
    scan_end hash lines (Returned (on_match (count_field line))).

(** [strings.Join(elems, sep)]. *)
Fixpoint Join (elems : list string) (sep : string) : string :=
  match elems with
  | [] => EmptyString
  | a :: rest =>
      match rest with
      | [] => a
      | _ :: _ => (a ++ sep ++ Join rest sep)%string
      end
  end.

(** The value of an upper-case hexadecimal digit, and the bytes a text of
    such digits spells, two digits to the byte. *)
Definition hexval (ch : ascii) : Z :=
  let c := byte_of_ascii ch in
  if (48 <=? c) && (c <=? 57) then c - 48
  else if (65 <=? c) && (c <=? 70) then c - 55
  else 0.

Fixpoint unhex (s : string) : list Z :=
  match s with
  | String a (String b s') => (16 * hexval a + hexval b) :: unhex s'
  | _ => []
  end.


(** * Properties *)

(** ** The shape of a digest *)

Section DigestShape.

Lemma u8_is_byte (v : Z) : is_byte (u8 v).
Proof. unfold is_byte, u8. apply Z.mod_pos_bound. reflexivity. Qed.

Lemma BEPutUint32_bytes (v : Z) : Forall is_byte (sha1.BEPutUint32 v).
Proof. unfold sha1.BEPutUint32. repeat constructor; apply u8_is_byte. Qed.

Lemma checkSum_length (d : sha1.digest) : List.length (sha1.checkSum d) = sha1.Size.
Proof.
  unfold sha1.checkSum.
  destruct (sha1.h (sha1.Write d (sha1.padding (sha1.len d))))
    as [[[[h0 h1] h2] h3] h4].
  reflexivity.
Qed.

Lemma checkSum_bytes (d : sha1.digest) : Forall is_byte (sha1.checkSum d).
Proof.
  unfold sha1.checkSum.
  destruct (sha1.h (sha1.Write d (sha1.padding (sha1.len d))))
    as [[[[h0 h1] h2] h3] h4].
  repeat (apply Forall_app; split); apply BEPutUint32_bytes.
Qed.

Lemma Sprintf_x_length (b : list Z) :
  String.length (Sprintf_x b) = (2 * List.length b)%nat.
Proof. induction b as [|c b IH]; simpl; [reflexivity | rewrite IH; lia]. Qed.

Lemma ToUpper_length (s : string) : String.length (ToUpper s) = String.length s.
Proof. induction s as [|c s IH]; simpl; congruence. Qed.

Lemma digit_upper_hex (n : Z) :
  0 <= n < 16 -> is_upper_hex (to_upper_byte (digit n)) = true.
Proof.
  intros Hn. unfold digit.
  assert (Hk : (Z.to_nat n < 16)%nat) by lia.
  generalize dependent (Z.to_nat n). intros k Hk.
  do 16 (destruct k as [|k]; [reflexivity|]). lia.
Qed.

Lemma high_nibble (c : Z) : is_byte c -> 0 <= Z.shiftr c 4 < 16.
Proof.
  unfold is_byte. intros Hc. rewrite Z.shiftr_div_pow2 by lia.
  change (2 ^ 4) with 16. split.
  - apply Z.div_pos; lia.
  - apply Z.div_lt_upper_bound; lia.
Qed.

Lemma low_nibble (c : Z) : 0 <= Z.land c 15 < 16.
Proof.
  change 15 with (Z.ones 4). rewrite Z.land_ones by lia.
  apply Z.mod_pos_bound. reflexivity.
Qed.

Lemma ToUpper_Sprintf_x_hex (b : list Z) :
  Forall is_byte b -> string_forall is_upper_hex (ToUpper (Sprintf_x b)) = true.
Proof.
  induction 1 as [|c b Hc Hb IH]; simpl; [reflexivity|].
  rewrite (digit_upper_hex _ (high_nibble c Hc)).
  rewrite (digit_upper_hex _ (low_nibble c)).
  exact IH.
Qed.

Lemma substring_0_length (n : nat) (s : string) :
  (n <= String.length s)%nat -> String.length (substring 0 n s) = n.
Proof.
  revert s. induction n as [|n IH]; intros [|c s] Hle; simpl in *;
    try reflexivity; try lia.
  rewrite IH by lia. reflexivity.
Qed.

Lemma substring_0_prefix (n : nat) (s : string) : prefix (substring 0 n s) s = true.
Proof.
  revert s. induction n as [|n IH]; intros [|c s]; simpl; try reflexivity.
  destruct (ascii_dec c c) as [_|Hne]; [apply IH | contradiction].
Qed.

Lemma hex_digest_length (password : string) :
  String.length (hex_digest password) = 40%nat.
Proof.
  unfold hex_digest, sha1.Sum. simpl app.
  rewrite ToUpper_length, Sprintf_x_length, checkSum_length. reflexivity.
Qed.

Lemma hex_digest_upper_hex (password : string) :
  string_forall is_upper_hex (hex_digest password) = true.
Proof.
  unfold hex_digest, sha1.Sum. simpl app.
  apply ToUpper_Sprintf_x_hex, checkSum_bytes.
Qed.

Lemma getHash_returns (password : string) :
  getHash password = Returned (fingerprint password).
Proof.
  unfold getHash. fold (hex_digest password).
  unfold slice. rewrite hex_digest_length. reflexivity.
Qed.

Lemma string_forall_substring (f : ascii -> bool) (n : nat) (s : string) :
  string_forall f s = true -> string_forall f (substring 0 n s) = true.
Proof.
  revert s. induction n as [|n IH]; intros [|c s]; simpl; try reflexivity.
  intros H. apply andb_true_iff in H as [Hc Hs].
  rewrite Hc. apply IH, Hs.
Qed.

End DigestShape.

(** ** Splitting a line at its colons *)

Section SplitLine.

Lemma genSplit_cons (n : nat) (s sep : string) :
  exists a l, genSplit n s sep = a :: l.
Proof.
  destruct n as [|n]; simpl; [eauto|].
  destruct (Index s sep); eauto.
Qed.

Lemma Split_no_separator (line : string) :
  has_separator line = false -> Split line ":" = [line].
Proof.
  unfold has_separator, Split. intros H.
  destruct (Index line ":") as [m|] eqn:E; [discriminate|].
  destruct (Count line ":"); simpl; [reflexivity|].
  rewrite E. reflexivity.
Qed.

Lemma Split_separator (line : string) :
  has_separator line = true -> exists a b l, Split line ":" = a :: b :: l.
Proof.
  unfold has_separator, Split, Count. intros H.
  destruct (Index line ":") as [m|] eqn:E; [clear H|discriminate].
  destruct line as [|c line]; [discriminate|].
  cbn [String.length count_from]. rewrite E.
  cbn [genSplit]. rewrite E.
  match goal with |- context [genSplit ?n ?s ?sep] =>
    destruct (genSplit_cons n s sep) as (b & l & ->) end.
  eauto.
Qed.

Lemma has_separator_fields (line : string) :
  has_separator line = true <-> (2 <= List.length (Split line ":"))%nat.
Proof.
  split; intros H.
  - destruct (Split_separator line H) as (a & b & l & ->). simpl. lia.
  - destruct (has_separator line) eqn:E; [reflexivity|].
    rewrite (Split_no_separator line E) in H. simpl in H. lia.
Qed.

End SplitLine.

(** ** The loop over the lines *)

Section Scan.

Variable hash : pwnedHash.

Lemma scan_cons (line : string) (lines : list string) :
  has_separator line = true ->
  scan hash (line :: lines) =
  if matches hash line then Returned (on_match (count_field line))
  else scan hash lines.
Proof.
  intros H. destruct (Split_separator line H) as (a & b & l & E).
  unfold matches, suffix_field, count_field, on_match. cbn [scan].
  rewrite E. cbn [index index_from bind nth].
  destruct (String.eqb (Range hash ++ a) (Hash hash)); [|reflexivity].
  destruct (ParseUint b 10 64) as [v [err|]]; reflexivity.
Qed.

Lemma scan_cons_no_separator (line : string) (lines : list string) :
  has_separator line = false ->
  scan hash (line :: lines) = Panicked (IndexOutOfRange 1 1).
Proof.
  intros H. cbn [scan]. rewrite (Split_no_separator line H). reflexivity.
Qed.

Lemma scan_passed_over (pre rest : list string) :
  Forall (passed_over hash) pre -> scan hash (pre ++ rest) = scan hash rest.
Proof.
  induction 1 as [|line pre [Hsep Hno] _ IH]; [reflexivity|].
  rewrite <- app_comm_cons, (scan_cons line _ Hsep), Hno. exact IH.
Qed.

Lemma scan_first_match (pre : list string) (line : string) (post : list string) :
  Forall (passed_over hash) pre ->
  has_separator line = true ->
  matches hash line = true ->
  scan hash (pre ++ line :: post) = Returned (on_match (count_field line)).
Proof.
  intros Hpre Hsep Hm.
  rewrite (scan_passed_over pre _ Hpre), (scan_cons line post Hsep), Hm.
  reflexivity.
Qed.

Lemma scan_no_match (lines : list string) :
  Forall (passed_over hash) lines -> scan hash lines = Returned not_found.
Proof.
  intros H. rewrite <- (app_nil_r lines), (scan_passed_over lines [] H).
  reflexivity.
Qed.

Lemma on_match_one_of_two (countStr : string) : one_of_two (on_match countStr).
Proof.
  unfold on_match. destruct (ParseUint countStr 10 64) as [v [err|]]; exact I.
Qed.

Lemma scan_one_of_two (lines : list string) (r : returned) :
  scan hash lines = Returned r -> one_of_two r.
Proof.
  induction lines as [|line lines IH]; intros H.
  - injection H as <-. exact I.
  - destruct (has_separator line) eqn:Hsep.
    + rewrite (scan_cons line lines Hsep) in H.
      destruct (matches hash line); [|exact (IH H)].
      injection H as <-. apply on_match_one_of_two.
    + rewrite (scan_cons_no_separator line lines Hsep) in H. discriminate.
Qed.

End Scan.

(** ** strconv.ParseUint in base 10 on 64 bits *)

Section ParseUint.

Variable s0 : string.

Lemma parse_digits_digit (ch : ascii) (s : string) (n : Z) :
  is_digit ch = true ->
  parse_digits s0 10 cutoff10 maxVal64 (String ch s) n =
  if n >=? cutoff10 then range_error s0
  else
    let n' := u64 (n * 10) in
    let n1 := u64 (n' + (byte_of_ascii ch - 48)) in
    if (n1 <? n') || (n1 >? maxVal64) then range_error s0
    else parse_digits s0 10 cutoff10 maxVal64 s n1.
Proof.
  unfold is_digit. intros H. cbn [parse_digits]. cbv zeta. rewrite H.
  apply andb_true_iff in H as [H1 H2].
  destruct (byte_of_ascii ch - 48 >=? 10) eqn:E; [lia | reflexivity].
Qed.

Lemma parse_digits_other (ch : ascii) (s : string) (n : Z) :
  is_digit ch = false ->
  parse_digits s0 10 cutoff10 maxVal64 (String ch s) n = syntax_error s0.
Proof.
  unfold is_digit. intros H. cbn [parse_digits]. cbv zeta. rewrite H.
  destruct ((97 <=? lower (byte_of_ascii ch)) && (lower (byte_of_ascii ch) <=? 122)) eqn:E;
    [|reflexivity].
  apply andb_true_iff in E as [E1 E2].
  destruct (lower (byte_of_ascii ch) - 97 + 10 >=? 10) eqn:E3; [reflexivity | lia].
Qed.

Lemma u64_range (v : Z) : 0 <= u64 v < 2 ^ 64.
Proof. unfold u64. apply Z.mod_pos_bound. reflexivity. Qed.

(** A successful parse gives a value of the [uint64] range. *)
Lemma parse_digits_bound (s : string) (n v : Z) :
  0 <= n < 2 ^ 64 ->
  parse_digits s0 10 cutoff10 maxVal64 s n = (v, None) ->
  0 <= v < 2 ^ 64.
Proof.
  revert n. induction s as [|ch s IH]; intros n Hn H.
  - cbn [parse_digits] in H. injection H as <-. exact Hn.
  - destruct (is_digit ch) eqn:Hd.
    + rewrite (parse_digits_digit ch s n Hd) in H. cbv zeta in H.
      destruct (n >=? cutoff10); [discriminate|].
      destruct (_ || _); [discriminate|].
      exact (IH _ (u64_range _) H).
    + rewrite (parse_digits_other ch s n Hd) in H. discriminate.
Qed.

(** Anything but decimal digits is refused, whatever was read before. *)
Lemma parse_digits_not_digits (s : string) (n : Z) :
  string_forall is_digit s = false ->
  exists v k, parse_digits s0 10 cutoff10 maxVal64 s n = (v, Some (NumError "ParseUint" s0 k)).
Proof.
  revert n. induction s as [|ch s IH]; intros n H; [discriminate|].
  cbn [string_forall] in H.
  destruct (is_digit ch) eqn:Hd.
  - rewrite (parse_digits_digit ch s n Hd). cbv zeta.
    destruct (n >=? cutoff10); [unfold range_error, rangeError; eauto|].
    destruct (_ || _); [unfold range_error, rangeError; eauto|].
    apply IH. exact H.
  - rewrite (parse_digits_other ch s n Hd). unfold syntax_error, syntaxError. eauto.
Qed.

Lemma numeral_from_ge (s : string) (acc : Z) :
  string_forall is_digit s = true -> 0 <= acc -> acc <= numeral_from s acc.
Proof.
  revert acc. induction s as [|ch s IH]; intros acc H Hacc; cbn [numeral_from]; [lia|].
  cbn [string_forall] in H. apply andb_true_iff in H as [Hd Hs].
  unfold is_digit in Hd. apply andb_true_iff in Hd as [H1 H2].
  specialize (IH (acc * 10 + (byte_of_ascii ch - 48)) Hs). lia.
Qed.

(** On decimal digits the loop computes the numeral, and reports a range
    error exactly when the numeral does not fit 64 bits. *)
Lemma parse_digits_numeral (s : string) (n : Z) :
  string_forall is_digit s = true ->
  0 <= n < 2 ^ 64 ->
  parse_digits s0 10 cutoff10 maxVal64 s n =
  if numeral_from s n <? 2 ^ 64 then (numeral_from s n, None) else range_error s0.
Proof.
  revert n. induction s as [|ch s IH]; intros n H Hn.
  - cbn [parse_digits numeral_from].
    destruct (n <? 2 ^ 64) eqn:E; [reflexivity | lia].
  - cbn [string_forall] in H. apply andb_true_iff in H as [Hd Hs].
    rewrite (parse_digits_digit ch s n Hd). cbv zeta. cbn [numeral_from].
    pose proof (numeral_from_ge s (n * 10 + (byte_of_ascii ch - 48)) Hs) as Hge.
    unfold is_digit in Hd. apply andb_true_iff in Hd as [H1 H2].
    set (d := byte_of_ascii ch - 48) in *.
    assert (Hd : 0 <= d <= 9) by (unfold d; lia).
    change cutoff10 with 1844674407370955162.
    change maxVal64 with 18446744073709551615.
    change (2 ^ 64) with 18446744073709551616 in *.
    destruct (n >=? 1844674407370955162) eqn:Ec.
    + destruct (numeral_from s (n * 10 + d) <? 18446744073709551616) eqn:E;
        [lia | reflexivity].
    + assert (E10 : u64 (n * 10) = n * 10).
      { unfold u64. apply Z.mod_small.
        change (2 ^ 64) with 18446744073709551616. lia. }
      rewrite E10.
      destruct (n * 10 + d <? 18446744073709551616) eqn:Efit.
      * assert (E1 : u64 (n * 10 + d) = n * 10 + d).
        { unfold u64. apply Z.mod_small.
          change (2 ^ 64) with 18446744073709551616. lia. }
        rewrite E1.
        destruct ((n * 10 + d <? n * 10) || (n * 10 + d >? 18446744073709551615)) eqn:Eo.
        { apply orb_true_iff in Eo as [Eo|Eo]; lia. }
        apply IH; [exact Hs | lia].
      * assert (E1 : u64 (n * 10 + d) = n * 10 + d - 18446744073709551616).
        { unfold u64. change (2 ^ 64) with 18446744073709551616.
          symmetry. apply (Z.mod_unique _ _ 1); lia. }
        rewrite E1.
        destruct (n * 10 + d - 18446744073709551616 <? n * 10) eqn:Eo; [|lia].
        cbn [orb].
        destruct (numeral_from s (n * 10 + d) <? 18446744073709551616) eqn:E;
          [lia | reflexivity].
Qed.

End ParseUint.

Lemma ParseUint_10_64 (s : string) :
  s <> "" -> ParseUint s 10 64 = parse_digits s 10 cutoff10 maxVal64 s 0.
Proof.
  intros Hs. unfold ParseUint.
  destruct (String.eqb_spec s ""); [contradiction | reflexivity].
Qed.

Lemma ParseUint_bound (s : string) (v : Z) :
  ParseUint s 10 64 = (v, None) -> 0 <= v < 2 ^ 64.
Proof.
  destruct (String.eqb_spec s "") as [->|Hs]; [discriminate|].
  rewrite (ParseUint_10_64 s Hs).
  apply parse_digits_bound. change (2 ^ 64) with 18446744073709551616. lia.
Qed.

Lemma is_numeral_inv (s : string) :
  is_numeral s = true -> s <> "" /\ string_forall is_digit s = true.
Proof.
  unfold is_numeral. intros H. apply andb_true_iff in H as [H1 H2].
  split; [|exact H2].
  destruct (String.eqb_spec s ""); [discriminate | assumption].
Qed.

Lemma ParseUint_numeral (s : string) :
  is_numeral s = true ->
  ParseUint s 10 64 =
  if numeral_value s <? 2 ^ 64 then (numeral_value s, None) else range_error s.
Proof.
  intros H. apply is_numeral_inv in H as [Hs Hd].
  rewrite (ParseUint_10_64 s Hs).
  apply parse_digits_numeral; [exact Hd|].
  change (2 ^ 64) with 18446744073709551616. lia.
Qed.

Lemma ParseUint_not_numeral (s : string) :
  is_numeral s = false ->
  exists v k, ParseUint s 10 64 = (v, Some (NumError "ParseUint" s k)).
Proof.
  unfold is_numeral.
  destruct (String.eqb_spec s "") as [E|Hs]; intros H.
  - subst s. exists 0, ErrSyntax. reflexivity.
  - rewrite (ParseUint_10_64 s Hs). apply parse_digits_not_digits.
    exact H.
Qed.

(** ** What the first matching line yields *)

Lemma on_match_numeral (countStr : string) :
  is_numeral countStr = true ->
  numeral_value countStr < 2 ^ 64 ->
  on_match countStr = found (numeral_value countStr).
Proof.
  intros Hn Hv. unfold on_match. rewrite (ParseUint_numeral countStr Hn).
  destruct (numeral_value countStr <? 2 ^ 64) eqn:E; [reflexivity | lia].
Qed.

Lemma on_match_too_large (countStr : string) :
  is_numeral countStr = true ->
  2 ^ 64 <= numeral_value countStr ->
  on_match countStr = failed (rangeError "ParseUint" countStr).
Proof.
  intros Hn Hv. unfold on_match. rewrite (ParseUint_numeral countStr Hn).
  destruct (numeral_value countStr <? 2 ^ 64) eqn:E; [lia | reflexivity].
Qed.

Lemma on_match_not_numeral (countStr : string) :
  is_numeral countStr = false ->
  exists k, on_match countStr = failed (NumError "ParseUint" countStr k).
Proof.
  intros Hn. unfold on_match.
  destruct (ParseUint_not_numeral countStr Hn) as (v & k & ->). eauto.
Qed.

Lemma on_match_bound (countStr : string) (r : Result) (err : option error) :
  on_match countStr = (Some r, err) ->
  Pwned r = true /\ 0 <= TimesObserved r < 2 ^ 64.
Proof.
  unfold on_match. destruct (ParseUint countStr 10 64) as [v [e|]] eqn:E; intros H.
  - discriminate.
  - injection H as <- _. split; [reflexivity|]. exact (ParseUint_bound _ _ E).
Qed.

Lemma scan_bound (hash : pwnedHash) (lines : list string) (r : Result) (err : option error) :
  scan hash lines = Returned (Some r, err) -> 0 <= TimesObserved r < 2 ^ 64.
Proof.
  induction lines as [|line lines IH]; intros H.
  - injection H as <- _. simpl. lia.
  - destruct (has_separator line) eqn:Hsep.
    + rewrite (scan_cons hash line lines Hsep) in H.
      destruct (matches hash line); [|exact (IH H)].
      injection H as H. apply on_match_bound in H. apply H.
    + rewrite (scan_cons_no_separator hash line lines Hsep) in H. discriminate.
Qed.

(** ** The whole lookup *)

Lemma IsPwned_unfold (net : network) (password : string) (w : World) :
  IsPwned net password w =
  match net (range_url (fingerprint password)) with
  | GetFails err => (Returned (failed (GetError err)), asked password w)
  | Response (BodyFails err) => (Returned (failed (ReadError err)), asked password w)
  | Response (BodyBytes body) =>
      (scan (fingerprint password) (Split body CRLF), asked password w)
  end.
Proof.
  unfold IsPwned. rewrite getHash_returns. unfold http_Get, asked.
  destruct (net (range_url (fingerprint password))) as [[body|err]|err]; reflexivity.
Qed.

Lemma IsPwned_answered (net : network) (password body : string) (w : World) :
  answers net password body ->
  IsPwned net password w =
  (scan (fingerprint password) (Split body CRLF), asked password w).
Proof.
  unfold answers. intros H. rewrite IsPwned_unfold, H. reflexivity.
Qed.

Lemma IsPwned_first_match (net : network) (password body : string) (w : World)
      (pre : list string) (line : string) (post : list string) :
  answers net password body ->
  Split body CRLF = pre ++ line :: post ->
  Forall (passed_over (fingerprint password)) pre ->
  has_separator line = true ->
  matches (fingerprint password) line = true ->
  fst (IsPwned net password w) = Returned (on_match (count_field line)).
Proof.
  intros Hnet Hlines Hpre Hsep Hm.
  rewrite (IsPwned_answered net password body w Hnet), Hlines. cbn [fst].
  apply scan_first_match; assumption.
Qed.

Lemma IsPwned_no_match (net : network) (password body : string) (w : World) :
  answers net password body ->
  Forall (passed_over (fingerprint password)) (Split body CRLF) ->
  fst (IsPwned net password w) = Returned not_found.
Proof.
  intros Hnet Hall.
  rewrite (IsPwned_answered net password body w Hnet). cbn [fst].
  apply scan_no_match, Hall.
Qed.

Lemma fingerprint_password :
  fingerprint "password" =
  {| Hash := "5BAA61E4C9B93F3F0682250B6CF8331B7EE68FD8"; Range := "5BAA6" |}.
Proof. vm_compute. reflexivity. Qed.

Lemma fingerprint_empty :
  fingerprint "" =
  {| Hash := "DA39A3EE5E6B4B0D3255BFEF95601890AFD80709"; Range := "DA39A" |}.
Proof. vm_compute. reflexivity. Qed.

Lemma is_signed_not_numeral (s : string) : is_signed s = true -> is_numeral s = false.
Proof.
  destruct s as [|c s]; [discriminate|]. cbn [is_signed]. intros H.
  unfold is_numeral. cbn [string_forall].
  apply orb_true_iff in H as [H|H]; apply Ascii.eqb_eq in H; subst c; reflexivity.
Qed.

Lemma on_match_signed (countStr : string) :
  is_signed countStr = true ->
  on_match countStr = failed (syntaxError "ParseUint" countStr).
Proof.
  destruct countStr as [|c s]; [discriminate|]. cbn [is_signed]. intros H.
  unfold on_match. rewrite ParseUint_10_64 by discriminate.
  rewrite parse_digits_other; [reflexivity|].
  apply orb_true_iff in H as [H|H]; apply Ascii.eqb_eq in H; subst c; reflexivity.
Qed.

(** ** Test vectors of the library models *)

Example sha1_abc : Hash (fingerprint "abc") = "A9993E364706816ABA3E25717850C26C9CD0D89D".
Proof. vm_compute. reflexivity. Qed.

Example sha1_one_chunk_of_a :
  Hash (fingerprint "aaaaaaaaaaaaaaaaaaaaaaaaaaaaaaaaaaaaaaaaaaaaaaaaaaaaaaaaaaaaaaaa") =
  "0098BA824B5C16427BD7A1122A5A442A25EC644D".
Proof. vm_compute. reflexivity. Qed.

Example sha1_fifty_six_a :
  Hash (fingerprint "aaaaaaaaaaaaaaaaaaaaaaaaaaaaaaaaaaaaaaaaaaaaaaaaaaaaaaaa") =
  "C2DB330F6083854C99D4B5BFB6E8F29F201BE699".
Proof. vm_compute. reflexivity. Qed.

Example Split_lines :
  Split ("a:b" ++ CRLF ++ CRLF ++ "c:d:e" ++ CRLF) CRLF = ["a:b"; ""; "c:d:e"; ""].
Proof. vm_compute. reflexivity. Qed.

Example Split_fields :
  Split "c:d:e" ":" = ["c"; "d"; "e"] /\ Split "" ":" = [""] /\ Split "::" ":" = [""; ""; ""].
Proof. repeat split; vm_compute; reflexivity. Qed.

Example ParseUint_samples :
  ParseUint "18446744073709551615" 10 64 = (18446744073709551615, None) /\
  ParseUint "18446744073709551616" 10 64 = range_error "18446744073709551616" /\
  ParseUint "007" 10 64 = (7, None) /\
  ParseUint "" 10 64 = syntax_error "" /\
  ParseUint "+5" 10 64 = syntax_error "+5" /\
  ParseUint "-5" 10 64 = syntax_error "-5" /\
  ParseUint "12a" 10 64 = syntax_error "12a" /\
  ParseUint "1_000" 10 64 = syntax_error "1_000".
Proof. repeat split; vm_compute; reflexivity. Qed.

(** * The claims *)

(** C1 (as amended). The fingerprint of the password "password" has the
    full hash 5BAA61E4C9B93F3F0682250B6CF8331B7EE68FD8, forty characters of
    upper-case hexadecimal, and the prefix 5BAA6. *)
Theorem getHash_password_vector :
  getHash "password" =
  Returned {| Hash := "5BAA61E4C9B93F3F0682250B6CF8331B7EE68FD8"; Range := "5BAA6" |}.
Proof. rewrite getHash_returns, fingerprint_password. reflexivity. Qed.

(** C1 (as stated, refuted). The full hash of "password" is not the
    thirty-nine character text 5BAA61E4C9B93F3F0682250B6CF8331B7EE68FD: the
    digest has forty characters, the last of which is 8. *)
Lemma getHash_password_not_claimed_text :
  exists h,
    getHash "password" = Returned h /\
    String.length (Hash h) = 40%nat /\
    String.length "5BAA61E4C9B93F3F0682250B6CF8331B7EE68FD" = 39%nat /\
    Hash h <> "5BAA61E4C9B93F3F0682250B6CF8331B7EE68FD".
Proof.
  exists (fingerprint "password"). rewrite getHash_returns, fingerprint_password.
  repeat split. cbn [Hash]. discriminate.
Qed.

(** C5. For every password the fingerprint is computed, its full hash is a
    text of forty upper-case hexadecimal characters, its prefix has exactly
    five characters, and the full hash starts with the prefix. *)
Theorem getHash_shape (password : string) :
  exists h,
    getHash password = Returned h /\
    String.length (Hash h) = 40%nat /\
    string_forall is_upper_hex (Hash h) = true /\
    String.length (Range h) = 5%nat /\
    prefix (Range h) (Hash h) = true.
Proof.
  exists (fingerprint password). split; [apply getHash_returns|].
  cbn [fingerprint Hash Range]. repeat split.
  - apply hex_digest_length.
  - apply hex_digest_upper_hex.
  - apply substring_0_length. rewrite hex_digest_length. lia.
  - apply substring_0_prefix.
Qed.

(** C7. The fingerprint computation never fails: for every input string it
    returns a fingerprint; on the empty string it returns the digest
    DA39A3EE5E6B4B0D3255BFEF95601890AFD80709 with prefix DA39A; and a lookup,
    of the empty password in particular, logs exactly one request, to the
    range URL followed by five upper-case hexadecimal characters. *)
Theorem getHash_total :
  (forall password, exists h, getHash password = Returned h) /\
  getHash "" =
    Returned {| Hash := "DA39A3EE5E6B4B0D3255BFEF95601890AFD80709"; Range := "DA39A" |} /\
  (forall net w,
      requests (snd (IsPwned net "" w)) =
      requests w ++ ["https://api.pwnedpasswords.com/range/DA39A"]) /\
  (forall net password w,
      exists key,
        requests (snd (IsPwned net password w)) =
        requests w ++ [("https://api.pwnedpasswords.com/range/" ++ key)%string] /\
        String.length key = 5%nat /\
        string_forall is_upper_hex key = true).
Proof.
  split; [|split; [|split]].
  - intros password. exists (fingerprint password). apply getHash_returns.
  - rewrite getHash_returns, fingerprint_empty. reflexivity.
  - intros net w. rewrite IsPwned_unfold.
    assert (E : asked "" w =
                {| requests := requests w ++ ["https://api.pwnedpasswords.com/range/DA39A"] |}).
    { unfold asked, range_url. rewrite fingerprint_empty. reflexivity. }
    rewrite E.
    destruct (net (range_url (fingerprint ""))) as [[body|err]|err]; reflexivity.
  - intros net password w. exists (Range (fingerprint password)).
    rewrite IsPwned_unfold. split; [|split].
    + destruct (net (range_url (fingerprint password))) as [[body|err]|err]; reflexivity.
    + cbn [fingerprint Range]. apply substring_0_length.
      rewrite hex_digest_length. lia.
    + cbn [fingerprint Range]. apply string_forall_substring, hex_digest_upper_hex.
Qed.

(** C9. The fingerprint computation is deterministic: two computations on
    the same password yield the same full hash and the same prefix. *)
Theorem getHash_deterministic (password : string) (h1 h2 : pwnedHash) :
  getHash password = Returned h1 ->
  getHash password = Returned h2 ->
  Hash h1 = Hash h2 /\ Range h1 = Range h2.
Proof.
  intros H1 H2. rewrite H1 in H2. injection H2 as <-. split; reflexivity.
Qed.

(** C9, at the password "password". *)
Lemma getHash_deterministic_witness :
  Hash (fingerprint "password") = Hash (fingerprint "password") /\
  Range (fingerprint "password") = Range (fingerprint "password").
Proof.
  apply (getHash_deterministic "password"); apply getHash_returns.
Defined.

(** C8. Whenever the synchronous check returns, exactly one of the result
    and the error is present: an error comes with a nil result, and a
    success is a non-nil result with a nil error. *)
Theorem IsPwned_exactly_one (net : network) (password : string) (w : World)
        (res : option Result) (err : option error) :
  fst (IsPwned net password w) = Returned (res, err) ->
  exactly_one res err.
Proof.
  rewrite IsPwned_unfold.
  destruct (net (range_url (fingerprint password))) as [[body|e]|e];
    cbn [fst]; intros H.
  - apply scan_one_of_two in H.
    destruct res as [r|], err as [e|]; try contradiction.
    + right. split; [discriminate | reflexivity].
    + left. split; [reflexivity | discriminate].
  - injection H as <- <-. left. split; [reflexivity | discriminate].
  - injection H as <- <-. left. split; [reflexivity | discriminate].
Qed.

(** C8, on a body whose only line matches "password", and on a failed
    request. *)
Lemma IsPwned_exactly_one_witness :
  exactly_one (Some {| Pwned := true; TimesObserved := 3730471 |}) None /\
  exactly_one None (Some (GetError "connection refused")).
Proof.
  split.
  - apply (IsPwned_exactly_one
             (serve "1E4C9B93F3F0682250B6CF8331B7EE68FD8:3730471") "password" world0).
    vm_compute. reflexivity.
  - apply (IsPwned_exactly_one (fun _ => GetFails "connection refused") "password" world0).
    vm_compute. reflexivity.
Defined.

(** C2 (as amended). When every line before the first line that matches the
    full fingerprint contains a colon, and that first matching line contains
    a colon and has a count field that is not a base-10 numeral, the lookup
    returns an error of [strconv.ParseUint] on that count field and a nil
    result. *)
Theorem IsPwned_bad_count_on_match (net : network) (password body : string) (w : World)
        (pre : list string) (line : string) (post : list string) :
  answers net password body ->
  Split body CRLF = pre ++ line :: post ->
  Forall (passed_over (fingerprint password)) pre ->
  has_separator line = true ->
  matches (fingerprint password) line = true ->
  is_numeral (count_field line) = false ->
  exists k,
    fst (IsPwned net password w) =
    Returned (None, Some (NumError "ParseUint" (count_field line) k)).
Proof.
  intros Hnet Hlines Hpre Hsep Hm Hbad.
  rewrite (IsPwned_first_match net password body w pre line post Hnet Hlines Hpre Hsep Hm).
  destruct (on_match_not_numeral _ Hbad) as (k & ->). exists k. reflexivity.
Qed.

(** C2 (as amended), on a body whose second line matches "password" and
    counts "many". *)
Lemma IsPwned_bad_count_on_match_witness :
  exists k,
    fst (IsPwned
           (serve ("0018A45C4D1DEF81644B54AB7F969B88D65:1" ++ CRLF ++
                   "1E4C9B93F3F0682250B6CF8331B7EE68FD8:many")) "password" world0) =
    Returned (None, Some (NumError "ParseUint"
                            (count_field "1E4C9B93F3F0682250B6CF8331B7EE68FD8:many") k)).
Proof.
  apply (IsPwned_bad_count_on_match
           (serve ("0018A45C4D1DEF81644B54AB7F969B88D65:1" ++ CRLF ++
                   "1E4C9B93F3F0682250B6CF8331B7EE68FD8:many"))
           "password"
           ("0018A45C4D1DEF81644B54AB7F969B88D65:1" ++ CRLF ++
            "1E4C9B93F3F0682250B6CF8331B7EE68FD8:many")
           world0
           ["0018A45C4D1DEF81644B54AB7F969B88D65:1"]
           "1E4C9B93F3F0682250B6CF8331B7EE68FD8:many"
           []).
  - reflexivity.
  - vm_compute. reflexivity.
  - repeat constructor; vm_compute; reflexivity.
  - vm_compute. reflexivity.
  - vm_compute. reflexivity.
  - vm_compute. reflexivity.
Defined.

(** C2 (as stated, refuted). A body whose only line has the count field
    "many", which is no numeral, and does not match "password": the lookup
    returns the result not found and no error. *)
Lemma IsPwned_bad_count_off_match_ignored :
  In "0018A45C4D1DEF81644B54AB7F969B88D65:many"
     (Split "0018A45C4D1DEF81644B54AB7F969B88D65:many" CRLF) /\
  count_field "0018A45C4D1DEF81644B54AB7F969B88D65:many" = "many" /\
  is_numeral "many" = false /\
  fst (IsPwned (serve "0018A45C4D1DEF81644B54AB7F969B88D65:many") "password" world0) =
  Returned (Some {| Pwned := false; TimesObserved := 0 |}, None).
Proof.
  split; [left; reflexivity|]. repeat split; vm_compute; reflexivity.
Qed.

(** C3 (as amended). A body whose first matching line is
    1E4C9B93F3F0682250B6CF8331B7EE68FD8:3730471, every line before it
    containing a colon, makes the check of "password" return found with the
    count 3730471.  In general, when every line before the first matching
    line contains a colon, and that line contains a colon and has a count
    field that is a base-10 numeral below 2^64, the lookup returns found
    with the value of that numeral. *)
Theorem IsPwned_first_match_found :
  (forall (net : network) (body : string) (w : World) (pre post : list string),
      answers net "password" body ->
      Split body CRLF = pre ++ "1E4C9B93F3F0682250B6CF8331B7EE68FD8:3730471" :: post ->
      Forall (passed_over (fingerprint "password")) pre ->
      fst (IsPwned net "password" w) =
      Returned (Some {| Pwned := true; TimesObserved := 3730471 |}, None)) /\
  (forall (net : network) (password body : string) (w : World)
          (pre : list string) (line : string) (post : list string),
      answers net password body ->
      Split body CRLF = pre ++ line :: post ->
      Forall (passed_over (fingerprint password)) pre ->
      has_separator line = true ->
      matches (fingerprint password) line = true ->
      is_numeral (count_field line) = true ->
      numeral_value (count_field line) < 2 ^ 64 ->
      fst (IsPwned net password w) =
      Returned (Some {| Pwned := true;
                        TimesObserved := numeral_value (count_field line) |}, None)).
Proof.
  assert (General :
    forall net password body w pre line post,
      answers net password body ->
      Split body CRLF = pre ++ line :: post ->
      Forall (passed_over (fingerprint password)) pre ->
      has_separator line = true ->
      matches (fingerprint password) line = true ->
      is_numeral (count_field line) = true ->
      numeral_value (count_field line) < 2 ^ 64 ->
      fst (IsPwned net password w) = Returned (found (numeral_value (count_field line)))).
  { intros net password body w pre line post Hnet Hlines Hpre Hsep Hm Hnum Hfit.
    rewrite (IsPwned_first_match net password body w pre line post Hnet Hlines Hpre Hsep Hm).
    rewrite (on_match_numeral _ Hnum Hfit). reflexivity. }
  split; [|exact General].
  intros net body w pre post Hnet Hlines Hpre.
  rewrite (General net "password" body w pre _ post Hnet Hlines Hpre).
  - vm_compute. reflexivity.
  - vm_compute. reflexivity.
  - rewrite fingerprint_password. vm_compute. reflexivity.
  - vm_compute. reflexivity.
  - vm_compute. reflexivity.
Qed.

(** C3 (as amended), on a body of three lines, the second of which matches
    "password". *)
Lemma IsPwned_first_match_found_witness :
  fst (IsPwned
         (serve ("0018A45C4D1DEF81644B54AB7F969B88D65:1" ++ CRLF ++
                 "1E4C9B93F3F0682250B6CF8331B7EE68FD8:3730471" ++ CRLF ++
                 "011053FD0102E94D6AE2F8B83D76FAF94F6:1")) "password" world0) =
  Returned (Some {| Pwned := true; TimesObserved := 3730471 |}, None).
Proof.
  apply (proj1 IsPwned_first_match_found
           (serve ("0018A45C4D1DEF81644B54AB7F969B88D65:1" ++ CRLF ++
                   "1E4C9B93F3F0682250B6CF8331B7EE68FD8:3730471" ++ CRLF ++
                   "011053FD0102E94D6AE2F8B83D76FAF94F6:1")%string)
           ("0018A45C4D1DEF81644B54AB7F969B88D65:1" ++ CRLF ++
            "1E4C9B93F3F0682250B6CF8331B7EE68FD8:3730471" ++ CRLF ++
            "011053FD0102E94D6AE2F8B83D76FAF94F6:1")%string
           world0
           ["0018A45C4D1DEF81644B54AB7F969B88D65:1"]
           ["011053FD0102E94D6AE2F8B83D76FAF94F6:1"]).
  - reflexivity.
  - vm_compute. reflexivity.
  - repeat constructor; vm_compute; reflexivity.
Defined.

(** C3 (as stated, refuted). The line 1E4C9B93F3F0682250B6CF8331B7EE68FD:3730471
    carries thirty-four characters before its colon, so with the prefix it
    spells thirty-nine characters and not the hash of "password": the check
    returns not found.  And a line that does match, with a count field that
    is no numeral, makes the lookup return an error, not found=true. *)
Lemma IsPwned_claimed_line_not_found :
  fst (IsPwned (serve "1E4C9B93F3F0682250B6CF8331B7EE68FD:3730471") "password" world0) =
    Returned (Some {| Pwned := false; TimesObserved := 0 |}, None) /\
  matches (fingerprint "password") "1E4C9B93F3F0682250B6CF8331B7EE68FD8:many" = true /\
  fst (IsPwned (serve "1E4C9B93F3F0682250B6CF8331B7EE68FD8:many") "password" world0) =
    Returned (None, Some (NumError "ParseUint" "many" ErrSyntax)).
Proof. repeat split; vm_compute; reflexivity. Qed.

(** C10 (as amended). Every count the lookup returns lies in [0, 2^64).
    When every line before the first matching line contains a colon, and
    that line contains a colon, a count field that is a base-10 numeral of
    value 2^64 or more makes the lookup return a range error and a nil
    result, and a count field that starts with a sign makes it return a
    syntax error and a nil result. *)
Theorem IsPwned_count_uint64 :
  (forall (net : network) (password : string) (w : World)
          (r : Result) (err : option error),
      fst (IsPwned net password w) = Returned (Some r, err) ->
      0 <= TimesObserved r < 2 ^ 64) /\
  (forall (net : network) (password body : string) (w : World)
          (pre : list string) (line : string) (post : list string),
      answers net password body ->
      Split body CRLF = pre ++ line :: post ->
      Forall (passed_over (fingerprint password)) pre ->
      has_separator line = true ->
      matches (fingerprint password) line = true ->
      (is_numeral (count_field line) = true ->
       2 ^ 64 <= numeral_value (count_field line) ->
       fst (IsPwned net password w) =
       Returned (None, Some (NumError "ParseUint" (count_field line) ErrRange))) /\
      (is_signed (count_field line) = true ->
       fst (IsPwned net password w) =
       Returned (None, Some (NumError "ParseUint" (count_field line) ErrSyntax)))).
Proof.
  split.
  - intros net password w r err. rewrite IsPwned_unfold.
    destruct (net (range_url (fingerprint password))) as [[body|e]|e];
      cbn [fst]; intros H; try discriminate.
    exact (scan_bound _ _ _ _ H).
  - intros net password body w pre line post Hnet Hlines Hpre Hsep Hm.
    rewrite (IsPwned_first_match net password body w pre line post Hnet Hlines Hpre Hsep Hm).
    split.
    + intros Hnum Hbig. rewrite (on_match_too_large _ Hnum Hbig). reflexivity.
    + intros Hsign. rewrite (on_match_signed _ Hsign). reflexivity.
Qed.

(** C10 (as amended), on a body whose only line matches "password" and
    counts 2^64. *)
Lemma IsPwned_count_uint64_witness :
  fst (IsPwned (serve "1E4C9B93F3F0682250B6CF8331B7EE68FD8:18446744073709551616")
               "password" world0) =
  Returned (None,
            Some (NumError "ParseUint"
                    (count_field "1E4C9B93F3F0682250B6CF8331B7EE68FD8:18446744073709551616")
                    ErrRange)).
Proof.
  apply (proj2 IsPwned_count_uint64
           (serve "1E4C9B93F3F0682250B6CF8331B7EE68FD8:18446744073709551616")
           "password"
           "1E4C9B93F3F0682250B6CF8331B7EE68FD8:18446744073709551616"
           world0 []
           "1E4C9B93F3F0682250B6CF8331B7EE68FD8:18446744073709551616" []).
  - reflexivity.
  - vm_compute. reflexivity.
  - constructor.
  - vm_compute. reflexivity.
  - vm_compute. reflexivity.
  - vm_compute. reflexivity.
  - vm_compute. discriminate.
Defined.

(** C10 (as stated, refuted). Two lines match "password"; the second counts
    2^64, the first counts 7: the lookup returns at the first and reports
    found with the count 7. *)
Lemma IsPwned_later_match_not_parsed :
  In "1E4C9B93F3F0682250B6CF8331B7EE68FD8:18446744073709551616"
     (Split ("1E4C9B93F3F0682250B6CF8331B7EE68FD8:7" ++ CRLF ++
             "1E4C9B93F3F0682250B6CF8331B7EE68FD8:18446744073709551616") CRLF) /\
  matches (fingerprint "password")
          "1E4C9B93F3F0682250B6CF8331B7EE68FD8:18446744073709551616" = true /\
  is_numeral (count_field "1E4C9B93F3F0682250B6CF8331B7EE68FD8:18446744073709551616") = true /\
  numeral_value (count_field "1E4C9B93F3F0682250B6CF8331B7EE68FD8:18446744073709551616")
    = 2 ^ 64 /\
  fst (IsPwned
         (serve ("1E4C9B93F3F0682250B6CF8331B7EE68FD8:7" ++ CRLF ++
                 "1E4C9B93F3F0682250B6CF8331B7EE68FD8:18446744073709551616"))
         "password" world0) =
  Returned (Some {| Pwned := true; TimesObserved := 7 |}, None).
Proof.
  split; [right; left; vm_compute; reflexivity|].
  repeat split; vm_compute; reflexivity.
Qed.

(** C4 (the code at the failing inputs). No line of the empty body, and no
    line of a body of one non-matching line ended by CRLF, matches
    "password"; on both the loop reads the second component of a line
    without a colon and the lookup panics instead of returning not found. *)
Theorem IsPwned_no_match_panics :
  forallb (fun line => negb (matches (fingerprint "password") line))
          (Split "" CRLF) = true /\
  fst (IsPwned (serve "") "password" world0) = Panicked (IndexOutOfRange 1 1) /\
  forallb (fun line => negb (matches (fingerprint "password") line))
          (Split ("0018A45C4D1DEF81644B54AB7F969B88D65:1" ++ CRLF) CRLF) = true /\
  fst (IsPwned (serve ("0018A45C4D1DEF81644B54AB7F969B88D65:1" ++ CRLF))
               "password" world0) = Panicked (IndexOutOfRange 1 1).
Proof. repeat split; vm_compute; reflexivity. Qed.

(** C6 (the code at the failing input). The body is an empty line followed
    by the one line that matches "password", whose count field "many" is no
    numeral: the loop panics on the empty line and the lookup returns no
    error. *)
Theorem IsPwned_bad_count_behind_blank_line_panics :
  Split (CRLF ++ "1E4C9B93F3F0682250B6CF8331B7EE68FD8:many") CRLF =
    [""; "1E4C9B93F3F0682250B6CF8331B7EE68FD8:many"] /\
  matches (fingerprint "password") "" = false /\
  matches (fingerprint "password") "1E4C9B93F3F0682250B6CF8331B7EE68FD8:many" = true /\
  is_numeral (count_field "1E4C9B93F3F0682250B6CF8331B7EE68FD8:many") = false /\
  fst (IsPwned (serve (CRLF ++ "1E4C9B93F3F0682250B6CF8331B7EE68FD8:many"))
               "password" world0) = Panicked (IndexOutOfRange 1 1).
Proof. repeat split; vm_compute; reflexivity. Qed.

(** Apart from lines without a colon the loop does find nothing where
    nothing matches: when every line of the body contains a colon and none
    matches, the lookup returns not found with the count 0. *)
Theorem IsPwned_not_found (net : network) (password body : string) (w : World) :
  answers net password body ->
  Forall (passed_over (fingerprint password)) (Split body CRLF) ->
  fst (IsPwned net password w) =
  Returned (Some {| Pwned := false; TimesObserved := 0 |}, None).
Proof. intros Hnet Hall. exact (IsPwned_no_match net password body w Hnet Hall). Qed.

(** The same, on a body of two lines that do not match "password". *)
Lemma IsPwned_not_found_witness :
  fst (IsPwned
         (serve ("0018A45C4D1DEF81644B54AB7F969B88D65:1" ++ CRLF ++
                 "011053FD0102E94D6AE2F8B83D76FAF94F6:1")) "password" world0) =
  Returned (Some {| Pwned := false; TimesObserved := 0 |}, None).
Proof.
  apply (IsPwned_not_found
           (serve ("0018A45C4D1DEF81644B54AB7F969B88D65:1" ++ CRLF ++
                   "011053FD0102E94D6AE2F8B83D76FAF94F6:1"))
           "password"
           ("0018A45C4D1DEF81644B54AB7F969B88D65:1" ++ CRLF ++
            "011053FD0102E94D6AE2F8B83D76FAF94F6:1")
           world0).
  - reflexivity.
  - assert (E : Split ("0018A45C4D1DEF81644B54AB7F969B88D65:1" ++ CRLF ++
                       "011053FD0102E94D6AE2F8B83D76FAF94F6:1") CRLF =
                ["0018A45C4D1DEF81644B54AB7F969B88D65:1";
                 "011053FD0102E94D6AE2F8B83D76FAF94F6:1"])
      by (vm_compute; reflexivity).
    rewrite E. repeat constructor; vm_compute; reflexivity.
Defined.

(** * Further properties of the lookup *)

(** ** The three ways the loop ends *)

Lemma on_match_found_inv (countStr : string) (r : Result) (err : option error) :
  on_match countStr = (Some r, err) ->
  err = None /\ Pwned r = true /\
  is_numeral countStr = true /\
  TimesObserved r = numeral_value countStr /\
  numeral_value countStr < 2 ^ 64.
Proof.
  destruct (is_numeral countStr) eqn:Hnum.
  - unfold on_match. rewrite (ParseUint_numeral countStr Hnum).
    destruct (numeral_value countStr <? 2 ^ 64) eqn:E.
    + intros H. injection H as <- <-. cbn [Pwned TimesObserved].
      repeat split. lia.
    + unfold range_error. discriminate.
  - destruct (on_match_not_numeral countStr Hnum) as (k & ->). discriminate.
Qed.

Lemma on_match_failed_inv (countStr : string) (e : error) :
  on_match countStr = (None, Some e) ->
  exists k,
    e = NumError "ParseUint" countStr k /\
    (is_numeral countStr = false \/
     (is_numeral countStr = true /\ 2 ^ 64 <= numeral_value countStr /\ k = ErrRange)).
Proof.
  destruct (is_numeral countStr) eqn:Hnum.
  - unfold on_match. rewrite (ParseUint_numeral countStr Hnum).
    destruct (numeral_value countStr <? 2 ^ 64) eqn:E; [discriminate|].
    unfold range_error, rangeError. intros H. injection H as <-.
    exists ErrRange. split; [reflexivity|]. right. repeat split. lia.
  - destruct (on_match_not_numeral countStr Hnum) as (k & ->).
    unfold failed. intros H. injection H as <-. exists k. auto.
Qed.

Lemma scan_end_cons (hash : pwnedHash) (line : string) (lines : list string)
      (o : outcome returned) :
  passed_over hash line -> scan_end hash lines o -> scan_end hash (line :: lines) o.
Proof.
  intros Hl H. destruct H as [Hall | pre l post -> Hpre Hsep | pre l post -> Hpre Hsep Hm].
  - apply end_not_found. constructor; assumption.
  - apply (end_panic hash _ (line :: pre) l post); auto.
  - apply (end_match hash _ (line :: pre) l post); auto.
Qed.

Lemma scan_ends (hash : pwnedHash) (lines : list string) :
  scan_end hash lines (scan hash lines).
Proof.
  induction lines as [|line lines IH].
  - apply end_not_found. constructor.
  - destruct (has_separator line) eqn:Hsep.
    + rewrite (scan_cons hash line lines Hsep).
      destruct (matches hash line) eqn:Hm.
      * apply (end_match hash _ [] line lines); auto.
      * apply scan_end_cons; [split; assumption | exact IH].
    + rewrite (scan_cons_no_separator hash line lines Hsep).
      apply (end_panic hash _ [] line lines); auto.
Qed.

Lemma scan_returned_inv (hash : pwnedHash) (lines : list string) (ret : returned) :
  scan hash lines = Returned ret ->
  (Forall (passed_over hash) lines /\ ret = not_found) \/
  (exists pre line post,
      lines = pre ++ line :: post /\
      Forall (passed_over hash) pre /\
      has_separator line = true /\
      matches hash line = true /\
      ret = on_match (count_field line)).
Proof.
  intros H. pose proof (scan_ends hash lines) as Hend. rewrite H in Hend.
  inversion Hend; subst.
  - left. auto.
  - right. eauto 10.
Qed.

Lemma scan_panicked_inv (hash : pwnedHash) (lines : list string) (p : panic) :
  scan hash lines = Panicked p ->
  p = IndexOutOfRange 1 1 /\
  exists pre line post,
    lines = pre ++ line :: post /\
    Forall (passed_over hash) pre /\
    has_separator line = false.
Proof.
  intros H. pose proof (scan_ends hash lines) as Hend. rewrite H in Hend.
  inversion Hend; subst. split; [reflexivity|]. eauto 10.
Qed.

Lemma IsPwned_cases (net : network) (password : string) (w : World) :
  (exists msg, net (range_url (fingerprint password)) = GetFails msg /\
               fst (IsPwned net password w) = Returned (failed (GetError msg))) \/
  (exists msg, net (range_url (fingerprint password)) = Response (BodyFails msg) /\
               fst (IsPwned net password w) = Returned (failed (ReadError msg))) \/
  (exists body, answers net password body /\
                fst (IsPwned net password w) =
                scan (fingerprint password) (Split body CRLF)).
Proof.
  rewrite IsPwned_unfold. unfold answers.
  destruct (net (range_url (fingerprint password))) as [[body|msg]|msg]; cbn [fst].
  - right. right. exists body. auto.
  - right. left. exists msg. auto.
  - left. exists msg. auto.
Qed.



(** The lookup panics in one situation only: the body was read, and the
    first of its lines that is not passed over has no colon.  The panic is
    then the index 1 out of range of a slice of length 1. *)
Theorem IsPwned_panics_iff (net : network) (password : string) (w : World) (p : panic) :
  fst (IsPwned net password w) = Panicked p <->
  p = IndexOutOfRange 1 1 /\
  exists body pre line post,
    answers net password body /\
    Split body CRLF = pre ++ line :: post /\
    Forall (passed_over (fingerprint password)) pre /\
    has_separator line = false.
Proof.
  split.
  - intros H.
    destruct (IsPwned_cases net password w)
      as [(msg & _ & E) | [(msg & _ & E) | (body & Hnet & E)]];
      rewrite E in H; try discriminate.
    apply scan_panicked_inv in H as (-> & pre & line & post & Hl & Hpre & Hsep).
    split; [reflexivity|]. exists body, pre, line, post. auto.
  - intros (-> & body & pre & line & post & Hnet & Hl & Hpre & Hsep).
    rewrite (IsPwned_answered net password body w Hnet), Hl. cbn [fst].
    rewrite (scan_passed_over _ pre _ Hpre).
    apply scan_cons_no_separator, Hsep.
Qed.

(** A result with [Pwned] set comes from the first line that is not passed
    over: it has a colon, it matches, its count field is a base-10 numeral
    below 2^64, and [TimesObserved] is the value of that numeral. *)
Theorem IsPwned_found_inv (net : network) (password : string) (w : World)
        (r : Result) (err : option error) :
  fst (IsPwned net password w) = Returned (Some r, err) ->
  Pwned r = true ->
  err = None /\
  exists body pre line post,
    answers net password body /\
    Split body CRLF = pre ++ line :: post /\
    Forall (passed_over (fingerprint password)) pre /\
    has_separator line = true /\
    matches (fingerprint password) line = true /\
    is_numeral (count_field line) = true /\
    TimesObserved r = numeral_value (count_field line) /\
    numeral_value (count_field line) < 2 ^ 64.
Proof.
  intros H Hp.
  destruct (IsPwned_cases net password w)
    as [(msg & _ & E) | [(msg & _ & E) | (body & Hnet & E)]];
    rewrite E in H; try discriminate.
  apply scan_returned_inv in H
    as [(Hall & Hr) | (pre & line & post & Hl & Hpre & Hsep & Hm & Hr)].
  - injection Hr as -> _. discriminate.
  - symmetry in Hr. apply on_match_found_inv in Hr as (He & _ & Hnum & Hv & Hfit).
    split; [exact He|]. exists body, pre, line, post. auto 10.
Qed.

(** The same, on a body whose second line matches "password". *)
Lemma IsPwned_found_inv_witness :
  @None error = None /\
  exists body pre line post,
    answers (serve ("0018A45C4D1DEF81644B54AB7F969B88D65:1" ++ CRLF ++
                    "1E4C9B93F3F0682250B6CF8331B7EE68FD8:3730471")) "password" body /\
    Split body CRLF = pre ++ line :: post /\
    Forall (passed_over (fingerprint "password")) pre /\
    has_separator line = true /\
    matches (fingerprint "password") line = true /\
    is_numeral (count_field line) = true /\
    TimesObserved {| Pwned := true; TimesObserved := 3730471 |} =
      numeral_value (count_field line) /\
    numeral_value (count_field line) < 2 ^ 64.
Proof.
  apply (IsPwned_found_inv
           (serve ("0018A45C4D1DEF81644B54AB7F969B88D65:1" ++ CRLF ++
                   "1E4C9B93F3F0682250B6CF8331B7EE68FD8:3730471"))
           "password" world0 {| Pwned := true; TimesObserved := 3730471 |} None).
  - vm_compute. reflexivity.
  - reflexivity.
Defined.

(** A result with [Pwned] unset is the zero count with no error, and it is
    returned only when the body was read, every one of its lines has a colon
    and none of them matches. *)
Theorem IsPwned_not_found_inv (net : network) (password : string) (w : World)
        (r : Result) (err : option error) :
  fst (IsPwned net password w) = Returned (Some r, err) ->
  Pwned r = false ->
  TimesObserved r = 0 /\ err = None /\
  exists body,
    answers net password body /\
    Forall (passed_over (fingerprint password)) (Split body CRLF).
Proof.
  intros H Hp.
  destruct (IsPwned_cases net password w)
    as [(msg & _ & E) | [(msg & _ & E) | (body & Hnet & E)]];
    rewrite E in H; try discriminate.
  apply scan_returned_inv in H
    as [(Hall & Hr) | (pre & line & post & Hl & Hpre & Hsep & Hm & Hr)].
  - injection Hr as -> ->. repeat split. exists body. auto.
  - symmetry in Hr. apply on_match_found_inv in Hr as (_ & Hp' & _).
    rewrite Hp in Hp'. discriminate.
Qed.

(** The same, on a body of one line that does not match "password". *)
Lemma IsPwned_not_found_inv_witness :
  TimesObserved {| Pwned := false; TimesObserved := 0 |} = 0 /\ @None error = None /\
  exists body,
    answers (serve "0018A45C4D1DEF81644B54AB7F969B88D65:1") "password" body /\
    Forall (passed_over (fingerprint "password")) (Split body CRLF).
Proof.
  apply (IsPwned_not_found_inv
           (serve "0018A45C4D1DEF81644B54AB7F969B88D65:1")
           "password" world0 {| Pwned := false; TimesObserved := 0 |} None).
  - vm_compute. reflexivity.
  - reflexivity.
Defined.

(** Every error the lookup returns is the failure of the request, the
    failure of the read, or the error of [ParseUint] on the count field of
    the first line that is not passed over, a line that matches and whose
    count field is no base-10 numeral or is one of value 2^64 or more. *)
Theorem IsPwned_error_inv (net : network) (password : string) (w : World)
        (res : option Result) (e : error) :
  fst (IsPwned net password w) = Returned (res, Some e) ->
  res = None /\
  ((exists msg, net (range_url (fingerprint password)) = GetFails msg /\
                e = GetError msg) \/
   (exists msg, net (range_url (fingerprint password)) = Response (BodyFails msg) /\
                e = ReadError msg) \/
   (exists body pre line post k,
       answers net password body /\
       Split body CRLF = pre ++ line :: post /\
       Forall (passed_over (fingerprint password)) pre /\
       has_separator line = true /\
       matches (fingerprint password) line = true /\
       e = NumError "ParseUint" (count_field line) k /\
       (is_numeral (count_field line) = false \/
        (2 ^ 64 <= numeral_value (count_field line) /\ k = ErrRange)))).
Proof.
  intros H.
  destruct (IsPwned_cases net password w)
    as [(msg & Hnet & E) | [(msg & Hnet & E) | (body & Hnet & E)]];
    rewrite E in H.
  - injection H as <- <-. split; [reflexivity|]. left. exists msg. auto.
  - injection H as <- <-. split; [reflexivity|]. right. left. exists msg. auto.
  - apply scan_returned_inv in H
      as [(Hall & Hr) | (pre & line & post & Hl & Hpre & Hsep & Hm & Hr)].
    + discriminate.
    + pose proof (on_match_one_of_two (count_field line)) as Hone.
      rewrite <- Hr in Hone. destruct res as [r|]; [contradiction|].
      symmetry in Hr. apply on_match_failed_inv in Hr as (k & -> & Hk).
      split; [reflexivity|]. right. right.
      exists body, pre, line, post, k. repeat split; auto.
      destruct Hk as [Hk | (_ & Hk & Hr)]; [left; exact Hk | right; auto].
Qed.

(** The same, on a body whose only line matches "password" and counts 2^64. *)
Lemma IsPwned_error_inv_witness :
  @None Result = None /\
  ((exists msg,
       serve "1E4C9B93F3F0682250B6CF8331B7EE68FD8:18446744073709551616"
             (range_url (fingerprint "password")) = GetFails msg /\
       NumError "ParseUint" "18446744073709551616" ErrRange = GetError msg) \/
   (exists msg,
       serve "1E4C9B93F3F0682250B6CF8331B7EE68FD8:18446744073709551616"
             (range_url (fingerprint "password")) = Response (BodyFails msg) /\
       NumError "ParseUint" "18446744073709551616" ErrRange = ReadError msg) \/
   (exists body pre line post k,
       answers (serve "1E4C9B93F3F0682250B6CF8331B7EE68FD8:18446744073709551616")
               "password" body /\
       Split body CRLF = pre ++ line :: post /\
       Forall (passed_over (fingerprint "password")) pre /\
       has_separator line = true /\
       matches (fingerprint "password") line = true /\
       NumError "ParseUint" "18446744073709551616" ErrRange =
         NumError "ParseUint" (count_field line) k /\
       (is_numeral (count_field line) = false \/
        (2 ^ 64 <= numeral_value (count_field line) /\ k = ErrRange)))).
Proof.
  apply (IsPwned_error_inv
           (serve "1E4C9B93F3F0682250B6CF8331B7EE68FD8:18446744073709551616")
           "password" world0 None
           (NumError "ParseUint" "18446744073709551616" ErrRange)).
  vm_compute. reflexivity.
Defined.

(** The panic, on the empty body. *)
Lemma IsPwned_panics_iff_witness :
  fst (IsPwned (serve "") "password" world0) = Panicked (IndexOutOfRange 1 1).
Proof.
  apply (proj2 (IsPwned_panics_iff (serve "") "password" world0 (IndexOutOfRange 1 1))).
  split; [reflexivity|].
  exists "", [], "", []. repeat split.
  constructor.
Defined.

(** ** What the loop does not look at *)

Lemma scan_congr (hash : pwnedHash) (l1 l2 : string) (pre post1 post2 : list string) :
  scan hash (l1 :: post1) = scan hash (l2 :: post2) ->
  scan hash (pre ++ l1 :: post1) = scan hash (pre ++ l2 :: post2).
Proof.
  intros H. induction pre as [|a pre IH]; [exact H|].
  rewrite <- !app_comm_cons.
  destruct (has_separator a) eqn:Hsep.
  - rewrite !(scan_cons hash a _ Hsep). rewrite IH. reflexivity.
  - rewrite !(scan_cons_no_separator hash a _ Hsep). reflexivity.
Qed.

Lemma scan_after_match (hash : pwnedHash) (line : string) (post1 post2 : list string) :
  has_separator line = true ->
  matches hash line = true ->
  scan hash (line :: post1) = scan hash (line :: post2).
Proof.
  intros Hsep Hm. rewrite !(scan_cons hash line _ Hsep), Hm. reflexivity.
Qed.

Lemma scan_same_fields (hash : pwnedHash) (l1 l2 a b : string) (r1 r2 rest : list string) :
  Split l1 ":" = a :: b :: r1 ->
  Split l2 ":" = a :: b :: r2 ->
  scan hash (l1 :: rest) = scan hash (l2 :: rest).
Proof.
  intros E1 E2. cbn [scan]. rewrite E1, E2. reflexivity.
Qed.

Lemma scan_count_unparsed (hash : pwnedHash) (l1 l2 a b1 b2 : string)
      (r1 r2 rest : list string) :
  Split l1 ":" = a :: b1 :: r1 ->
  Split l2 ":" = a :: b2 :: r2 ->
  String.eqb (Range hash ++ a) (Hash hash) = false ->
  scan hash (l1 :: rest) = scan hash (l2 :: rest).
Proof.
  intros E1 E2 Hne. cbn [scan]. rewrite E1, E2.
  cbn [index index_from bind]. rewrite Hne. reflexivity.
Qed.

Lemma IsPwned_congr (net1 net2 : network) (password body1 body2 : string)
      (w1 w2 : World) :
  answers net1 password body1 ->
  answers net2 password body2 ->
  scan (fingerprint password) (Split body1 CRLF) =
  scan (fingerprint password) (Split body2 CRLF) ->
  fst (IsPwned net1 password w1) = fst (IsPwned net2 password w2).
Proof.
  intros H1 H2 E.
  rewrite (IsPwned_answered net1 password body1 w1 H1).
  rewrite (IsPwned_answered net2 password body2 w2 H2).
  exact E.
Qed.

(** The loop returns at the first matching line: two bodies that agree up
    to and including a matching line that has a colon give the same outcome,
    whatever follows that line, lines without a colon included. *)
Theorem IsPwned_after_match_irrelevant
        (net1 net2 : network) (password body1 body2 : string) (w1 w2 : World)
        (pre : list string) (line : string) (post1 post2 : list string) :
  answers net1 password body1 ->
  answers net2 password body2 ->
  Split body1 CRLF = pre ++ line :: post1 ->
  Split body2 CRLF = pre ++ line :: post2 ->
  has_separator line = true ->
  matches (fingerprint password) line = true ->
  fst (IsPwned net1 password w1) = fst (IsPwned net2 password w2).
Proof.
  intros H1 H2 E1 E2 Hsep Hm.
  apply (IsPwned_congr net1 net2 password body1 body2 w1 w2 H1 H2).
  rewrite E1, E2. apply scan_congr, scan_after_match; assumption.
Qed.

(** The same, on a matching line alone and followed by a line without a
    colon. *)
Lemma IsPwned_after_match_irrelevant_witness :
  fst (IsPwned (serve "1E4C9B93F3F0682250B6CF8331B7EE68FD8:5") "password" world0) =
  fst (IsPwned (serve ("1E4C9B93F3F0682250B6CF8331B7EE68FD8:5" ++ CRLF ++ "no colon here"))
               "password" world0).
Proof.
  apply (IsPwned_after_match_irrelevant
           (serve "1E4C9B93F3F0682250B6CF8331B7EE68FD8:5")
           (serve ("1E4C9B93F3F0682250B6CF8331B7EE68FD8:5" ++ CRLF ++ "no colon here"))
           "password"
           "1E4C9B93F3F0682250B6CF8331B7EE68FD8:5"
           ("1E4C9B93F3F0682250B6CF8331B7EE68FD8:5" ++ CRLF ++ "no colon here")
           world0 world0
           [] "1E4C9B93F3F0682250B6CF8331B7EE68FD8:5" [] ["no colon here"]).
  - reflexivity.
  - reflexivity.
  - vm_compute. reflexivity.
  - vm_compute. reflexivity.
  - vm_compute. reflexivity.
  - vm_compute. reflexivity.
Defined.

(** Of a line the loop reads the first two colon-separated components and
    nothing else: two bodies that differ in one line only, the two lines
    having the same first and the same second component, give the same
    outcome. *)
Theorem IsPwned_further_fields_ignored
        (net1 net2 : network) (password body1 body2 : string) (w1 w2 : World)
        (pre : list string) (l1 l2 : string) (post : list string)
        (a b : string) (r1 r2 : list string) :
  answers net1 password body1 ->
  answers net2 password body2 ->
  Split body1 CRLF = pre ++ l1 :: post ->
  Split body2 CRLF = pre ++ l2 :: post ->
  Split l1 ":" = a :: b :: r1 ->
  Split l2 ":" = a :: b :: r2 ->
  fst (IsPwned net1 password w1) = fst (IsPwned net2 password w2).
Proof.
  intros H1 H2 E1 E2 F1 F2.
  apply (IsPwned_congr net1 net2 password body1 body2 w1 w2 H1 H2).
  rewrite E1, E2. apply scan_congr, (scan_same_fields _ l1 l2 a b r1 r2); assumption.
Qed.

(** The same, on a matching line counting 12 and the line with ":34" added. *)
Lemma IsPwned_further_fields_ignored_witness :
  fst (IsPwned (serve "1E4C9B93F3F0682250B6CF8331B7EE68FD8:12") "password" world0) =
  fst (IsPwned (serve "1E4C9B93F3F0682250B6CF8331B7EE68FD8:12:34") "password" world0).
Proof.
  apply (IsPwned_further_fields_ignored
           (serve "1E4C9B93F3F0682250B6CF8331B7EE68FD8:12")
           (serve "1E4C9B93F3F0682250B6CF8331B7EE68FD8:12:34")
           "password"
           "1E4C9B93F3F0682250B6CF8331B7EE68FD8:12"
           "1E4C9B93F3F0682250B6CF8331B7EE68FD8:12:34"
           world0 world0
           [] "1E4C9B93F3F0682250B6CF8331B7EE68FD8:12"
           "1E4C9B93F3F0682250B6CF8331B7EE68FD8:12:34" []
           "1E4C9B93F3F0682250B6CF8331B7EE68FD8" "12" [] ["34"]).
  - reflexivity.
  - reflexivity.
  - vm_compute. reflexivity.
  - vm_compute. reflexivity.
  - vm_compute. reflexivity.
  - vm_compute. reflexivity.
Defined.

(** The count of a line that does not match is never parsed: two bodies
    that differ only in what follows the first colon of one line, a line
    whose first component does not complete the hash, give the same
    outcome. *)
Theorem IsPwned_count_off_match_unparsed
        (net1 net2 : network) (password body1 body2 : string) (w1 w2 : World)
        (pre : list string) (l1 l2 : string) (post : list string)
        (a b1 b2 : string) (r1 r2 : list string) :
  answers net1 password body1 ->
  answers net2 password body2 ->
  Split body1 CRLF = pre ++ l1 :: post ->
  Split body2 CRLF = pre ++ l2 :: post ->
  Split l1 ":" = a :: b1 :: r1 ->
  Split l2 ":" = a :: b2 :: r2 ->
  String.eqb (Range (fingerprint password) ++ a) (Hash (fingerprint password)) = false ->
  fst (IsPwned net1 password w1) = fst (IsPwned net2 password w2).
Proof.
  intros H1 H2 E1 E2 F1 F2 Hne.
  apply (IsPwned_congr net1 net2 password body1 body2 w1 w2 H1 H2).
  rewrite E1, E2.
  apply scan_congr, (scan_count_unparsed _ l1 l2 a b1 b2 r1 r2); assumption.
Qed.

(** The same, on a first line that does not match "password" and counts 1
    in one body and "many" in the other. *)
Lemma IsPwned_count_off_match_unparsed_witness :
  fst (IsPwned (serve ("0018A45C4D1DEF81644B54AB7F969B88D65:1" ++ CRLF ++
                       "1E4C9B93F3F0682250B6CF8331B7EE68FD8:5")) "password" world0) =
  fst (IsPwned (serve ("0018A45C4D1DEF81644B54AB7F969B88D65:many" ++ CRLF ++
                       "1E4C9B93F3F0682250B6CF8331B7EE68FD8:5")) "password" world0).
Proof.
  apply (IsPwned_count_off_match_unparsed
           (serve ("0018A45C4D1DEF81644B54AB7F969B88D65:1" ++ CRLF ++
                   "1E4C9B93F3F0682250B6CF8331B7EE68FD8:5"))
           (serve ("0018A45C4D1DEF81644B54AB7F969B88D65:many" ++ CRLF ++
                   "1E4C9B93F3F0682250B6CF8331B7EE68FD8:5"))
           "password"
           ("0018A45C4D1DEF81644B54AB7F969B88D65:1" ++ CRLF ++
            "1E4C9B93F3F0682250B6CF8331B7EE68FD8:5")
           ("0018A45C4D1DEF81644B54AB7F969B88D65:many" ++ CRLF ++
            "1E4C9B93F3F0682250B6CF8331B7EE68FD8:5")
           world0 world0
           [] "0018A45C4D1DEF81644B54AB7F969B88D65:1"
           "0018A45C4D1DEF81644B54AB7F969B88D65:many"
           ["1E4C9B93F3F0682250B6CF8331B7EE68FD8:5"]
           "0018A45C4D1DEF81644B54AB7F969B88D65" "1" "many" [] []).
  - reflexivity.
  - reflexivity.
  - vm_compute. reflexivity.
  - vm_compute. reflexivity.
  - vm_compute. reflexivity.
  - vm_compute. reflexivity.
  - vm_compute. reflexivity.
Defined.

(** ** The suffix a matching line carries *)

Lemma append_cancel_l (a x y : string) : (a ++ x)%string = (a ++ y)%string -> x = y.
Proof.
  induction a as [|c a IH]; cbn [append]; intros H; [exact H|].
  injection H as H. exact (IH H).
Qed.

Lemma substring_whole (s : string) : substring 0 (String.length s) s = s.
Proof. induction s as [|c s IH]; cbn [String.length substring]; congruence. Qed.

Lemma take_drop (n : nat) (s : string) : (substring 0 n s ++ drop n s)%string = s.
Proof.
  unfold drop. revert n. induction s as [|c s IH]; intros [|n]; try reflexivity.
  - rewrite Nat.sub_0_r. change (substring 0 0 (String c s)) with EmptyString.
    cbn [append]. apply substring_whole.
  - cbn [String.length substring append Nat.sub]. rewrite IH. reflexivity.
Qed.

Lemma substring_length (n m : nat) (s : string) :
  String.length (substring n m s) = Nat.min m (String.length s - n).
Proof.
  revert n m. induction s as [|c s IH]; intros [|n] [|m]; cbn [substring String.length];
    try reflexivity.
  - rewrite IH. cbn [Nat.sub]. rewrite Nat.sub_0_r. reflexivity.
  - rewrite IH. reflexivity.
  - rewrite IH. reflexivity.
Qed.

Lemma drop_length (n : nat) (s : string) :
  String.length (drop n s) = (String.length s - n)%nat.
Proof. unfold drop. rewrite substring_length. lia. Qed.

Lemma string_forall_substring_any (f : ascii -> bool) (n m : nat) (s : string) :
  string_forall f s = true -> string_forall f (substring n m s) = true.
Proof.
  revert n m. induction s as [|c s IH]; intros [|n] [|m] H;
    cbn [substring string_forall] in *; try reflexivity.
  - apply andb_true_iff in H as [Hc Hs]. rewrite Hc. apply IH, Hs.
  - apply andb_true_iff in H as [Hc Hs]. apply IH, Hs.
  - apply andb_true_iff in H as [Hc Hs]. apply IH, Hs.
Qed.

(** A line matches exactly when its first component is the hash without
    its first five characters, that is thirty-five characters of upper-case
    hexadecimal: the comparison is exact, character by character. *)
Theorem matches_iff_suffix (password line : string) :
  (matches (fingerprint password) line = true <->
   suffix_field line = drop 5 (Hash (fingerprint password))) /\
  String.length (drop 5 (Hash (fingerprint password))) = 35%nat /\
  string_forall is_upper_hex (drop 5 (Hash (fingerprint password))) = true.
Proof.
  split; [|split].
  - unfold matches. cbn [fingerprint Hash Range].
    rewrite String.eqb_eq.
    rewrite <- (take_drop 5 (hex_digest password)) at 2.
    split; intros H.
    + exact (append_cancel_l _ _ _ H).
    + rewrite H. reflexivity.
  - cbn [fingerprint Hash]. rewrite drop_length, hex_digest_length. reflexivity.
  - cbn [fingerprint Hash]. unfold drop.
    apply string_forall_substring_any, hex_digest_upper_hex.
Qed.

(** ** strings.Split loses nothing and leaves no separator *)

Lemma Index_unfold (s sep : string) :
  Index s sep =
  if prefix sep s then Some O
  else match s with
       | EmptyString => None
       | String _ s' => option_map S (Index s' sep)
       end.
Proof. destruct s; reflexivity. Qed.

Lemma drop_0 (s : string) : drop 0 s = s.
Proof. unfold drop. rewrite Nat.sub_0_r. apply substring_whole. Qed.

Lemma drop_S (c : ascii) (s : string) (n : nat) : drop (S n) (String c s) = drop n s.
Proof. reflexivity. Qed.

Lemma substring_0_0 (s : string) : substring 0 0 s = EmptyString.
Proof. destruct s; reflexivity. Qed.

Lemma prefix_decompose (sep s : string) :
  prefix sep s = true -> s = (sep ++ drop (String.length sep) s)%string.
Proof.
  revert s. induction sep as [|a sep IH]; intros s H.
  - cbn [append String.length]. symmetry. apply drop_0.
  - destruct s as [|b s]; [discriminate|]. cbn [prefix] in H.
    destruct (ascii_dec a b) as [->|]; [|discriminate].
    cbn [append String.length]. rewrite drop_S. f_equal. apply IH, H.
Qed.

Lemma prefix_trans (a b c : string) :
  prefix a b = true -> prefix b c = true -> prefix a c = true.
Proof.
  revert b c. induction a as [|x a IH]; intros b c Hab Hbc; [destruct c; reflexivity|].
  destruct b as [|y b]; [discriminate|]. destruct c as [|z c]; [discriminate|].
  cbn [prefix] in *.
  destruct (ascii_dec x y) as [->|]; [|discriminate].
  destruct (ascii_dec y z) as [->|]; [|discriminate].
  exact (IH b c Hab Hbc).
Qed.

Lemma prefix_of_empty (sep : string) : sep <> "" -> prefix sep "" = false.
Proof. destruct sep; [contradiction | reflexivity]. Qed.

Lemma Index_decompose (s sep : string) (m : nat) :
  Index s sep = Some m ->
  s = (substring 0 m s ++ sep ++ drop (m + String.length sep) s)%string.
Proof.
  revert m. induction s as [|c s IH]; intros m; rewrite Index_unfold.
  - destruct (prefix sep "") eqn:P; [|discriminate].
    intros H. injection H as <-. rewrite substring_0_0. cbn [append Nat.add].
    apply prefix_decompose, P.
  - destruct (prefix sep (String c s)) eqn:P.
    + intros H. injection H as <-. rewrite substring_0_0. cbn [append Nat.add].
      apply prefix_decompose, P.
    + destruct (Index s sep) as [m'|] eqn:E; [|discriminate].
      intros H. injection H as <-.
      cbn [substring append Nat.add]. rewrite drop_S. f_equal. apply IH. reflexivity.
Qed.

Lemma Index_before (s sep : string) (m : nat) :
  sep <> "" ->
  Index s sep = Some m ->
  Index (substring 0 m s) sep = None.
Proof.
  intros Hsep. revert m. induction s as [|c s IH]; intros m; rewrite Index_unfold.
  - rewrite (prefix_of_empty sep Hsep). discriminate.
  - destruct (prefix sep (String c s)) eqn:P.
    + intros H. injection H as <-. rewrite substring_0_0, Index_unfold.
      rewrite (prefix_of_empty sep Hsep). reflexivity.
    + destruct (Index s sep) as [m'|] eqn:E; [|discriminate].
      intros H. injection H as <-. cbn [substring]. rewrite Index_unfold.
      destruct (prefix sep (String c (substring 0 m' s))) eqn:Q.
      * assert (R : prefix (String c (substring 0 m' s)) (String c s) = true).
        { cbn [prefix]. destruct (ascii_dec c c); [|contradiction].
          apply substring_0_prefix. }
        rewrite (prefix_trans _ _ _ Q R) in P. discriminate.
      * rewrite (IH m' eq_refl). reflexivity.
Qed.

Lemma genSplit_pieces (sep : string) (fuel : nat) (s : string) :
  sep <> "" ->
  (String.length s <= fuel)%nat ->
  Forall (fun piece => Index piece sep = None)
         (genSplit (count_from fuel s sep) s sep).
Proof.
  intros Hsep. revert s. induction fuel as [|fuel IH]; intros s Hlen.
  - destruct s; [|cbn [String.length] in Hlen; lia].
    cbn [count_from genSplit]. constructor; [|constructor].
    rewrite Index_unfold, (prefix_of_empty sep Hsep). reflexivity.
  - cbn [count_from]. destruct (Index s sep) as [m|] eqn:E.
    + cbn [genSplit]. rewrite E. constructor.
      * exact (Index_before s sep m Hsep E).
      * apply IH. rewrite drop_length.
        destruct sep; [contradiction|]. cbn [String.length]. lia.
    + cbn [genSplit]. constructor; [exact E | constructor].
Qed.

Lemma Join_genSplit (sep : string) (n : nat) (s : string) :
  Join (genSplit n s sep) sep = s.
Proof.
  revert s. induction n as [|n IH]; intros s; [reflexivity|].
  cbn [genSplit]. destruct (Index s sep) as [m|] eqn:E; [|reflexivity].
  specialize (IH (drop (m + String.length sep) s)).
  destruct (genSplit_cons n (drop (m + String.length sep) s) sep) as (b & l & El).
  rewrite El in *. cbn [Join] in *. rewrite IH.
  symmetry. exact (Index_decompose s sep m E).
Qed.

Lemma genSplit_count_length (sep : string) (fuel : nat) (s : string) :
  List.length (genSplit (count_from fuel s sep) s sep) = S (count_from fuel s sep).
Proof.
  revert s. induction fuel as [|fuel IH]; intros s; [reflexivity|].
  cbn [count_from]. destruct (Index s sep) as [m|] eqn:E; [|reflexivity].
  cbn [genSplit]. rewrite E. cbn [List.length]. rewrite IH. reflexivity.
Qed.

(** Splitting at a non-empty separator loses nothing and leaves no
    separator behind: the pieces joined by the separator give the string
    back, no piece contains the separator, and there is one piece more than
    there are separators.  So the lines scanned hold no CRLF and spell the
    body, and the components of a line hold no colon and spell the line. *)
Theorem Split_pieces (s sep : string) :
  sep <> "" ->
  Join (Split s sep) sep = s /\
  Forall (fun piece => Index piece sep = None) (Split s sep) /\
  List.length (Split s sep) = S (Count s sep).
Proof.
  intros Hsep. unfold Split, Count. split; [|split].
  - apply Join_genSplit.
  - apply genSplit_pieces; [exact Hsep | lia].
  - apply genSplit_count_length.
Qed.

(** The same, on a body of two lines ended by CRLF. *)
Lemma Split_pieces_witness :
  Join (Split ("a:1" ++ CRLF ++ "b:2" ++ CRLF) CRLF) CRLF =
    ("a:1" ++ CRLF ++ "b:2" ++ CRLF)%string /\
  Forall (fun piece => Index piece CRLF = None)
         (Split ("a:1" ++ CRLF ++ "b:2" ++ CRLF) CRLF) /\
  List.length (Split ("a:1" ++ CRLF ++ "b:2" ++ CRLF) CRLF) =
    S (Count ("a:1" ++ CRLF ++ "b:2" ++ CRLF) CRLF).
Proof.
  apply (Split_pieces ("a:1" ++ CRLF ++ "b:2" ++ CRLF) CRLF).
  discriminate.
Defined.

(** ** A body that ends with CRLF *)

Lemma prefix_length (sep s : string) :
  prefix sep s = true -> (String.length sep <= String.length s)%nat.
Proof.
  revert s. induction sep as [|a sep IH]; intros s H; cbn [String.length]; [lia|].
  destruct s as [|b s]; [discriminate|]. cbn [prefix] in H.
  destruct (ascii_dec a b); [|discriminate].
  specialize (IH s H). cbn [String.length]. lia.
Qed.

Lemma prefix_app_long (sep s t : string) :
  (String.length sep <= String.length s)%nat ->
  prefix sep (s ++ t) = prefix sep s.
Proof.
  revert s. induction sep as [|a sep IH]; intros s H.
  - destruct s; destruct t; reflexivity.
  - destruct s as [|b s]; cbn [String.length] in H; [lia|].
    cbn [append prefix]. destruct (ascii_dec a b); [|reflexivity].
    apply IH. lia.
Qed.

Lemma Index_bound (s sep : string) (m : nat) :
  Index s sep = Some m -> (m + String.length sep <= String.length s)%nat.
Proof.
  revert m. induction s as [|c s IH]; intros m; rewrite Index_unfold.
  - destruct (prefix sep "") eqn:P; [|discriminate].
    intros H. injection H as <-. apply prefix_length in P. lia.
  - destruct (prefix sep (String c s)) eqn:P.
    + intros H. injection H as <-. apply prefix_length in P. lia.
    + destruct (Index s sep) as [m'|] eqn:E; [|discriminate].
      intros H. injection H as <-. specialize (IH m' eq_refl).
      cbn [String.length]. lia.
Qed.

Lemma Index_app (s sep t : string) (m : nat) :
  Index s sep = Some m -> Index (s ++ t) sep = Some m.
Proof.
  revert m. induction s as [|c s IH]; intros m H.
  - pose proof (Index_bound _ _ _ H) as Hb. cbn [String.length] in Hb.
    destruct sep; [|cbn [String.length] in Hb; lia].
    assert (m = O) by lia. subst m. rewrite Index_unfold.
    destruct (""%string ++ t)%string; reflexivity.
  - pose proof (Index_bound _ _ _ H) as Hb.
    rewrite Index_unfold in H. cbn [append]. rewrite Index_unfold.
    change (String c (s ++ t)) with (String c s ++ t)%string.
    rewrite prefix_app_long by lia.
    destruct (prefix sep (String c s)); [exact H|].
    destruct (Index s sep) as [m'|] eqn:E; [|discriminate].
    rewrite (IH m' eq_refl). exact H.
Qed.

Lemma Index_app_CRLF (s : string) :
  Index s CRLF = None -> Index (s ++ CRLF) CRLF = Some (String.length s).
Proof.
  induction s as [|c s IH]; intros H; [reflexivity|].
  rewrite Index_unfold in H.
  destruct (prefix CRLF (String c s)) eqn:P; [discriminate|].
  destruct (Index s CRLF) as [m|] eqn:E; [discriminate|].
  cbn [append String.length]. rewrite Index_unfold, (IH eq_refl).
  destruct s as [|d s].
  - cbn [append]. unfold CRLF. cbn [prefix].
    destruct (ascii_dec "013" c); [|reflexivity].
    destruct (ascii_dec "010" "013"); [discriminate | reflexivity].
  - change (String c (String d s ++ CRLF)) with (String c (String d s) ++ CRLF)%string.
    rewrite prefix_app_long
      by (change (String.length CRLF) with 2%nat; cbn [String.length]; lia).
    rewrite P. reflexivity.
Qed.

Lemma substring_0_app (m : nat) (s t : string) :
  (m <= String.length s)%nat -> substring 0 m (s ++ t) = substring 0 m s.
Proof.
  revert s. induction m as [|m IH]; intros s H.
  - rewrite !substring_0_0. reflexivity.
  - destruct s as [|c s]; cbn [String.length] in H; [lia|].
    cbn [append substring]. rewrite IH by lia. reflexivity.
Qed.

Lemma append_length (s t : string) :
  String.length (s ++ t) = (String.length s + String.length t)%nat.
Proof. induction s as [|c s IH]; cbn [append String.length Nat.add]; congruence. Qed.

Lemma drop_app (n : nat) (s t : string) :
  (n <= String.length s)%nat -> drop n (s ++ t) = (drop n s ++ t)%string.
Proof.
  revert n. induction s as [|c s IH]; intros n H.
  - cbn [String.length] in H. assert (n = O) by lia. subst n.
    rewrite !drop_0. reflexivity.
  - destruct n as [|n].
    + rewrite !drop_0. reflexivity.
    + cbn [append]. rewrite !drop_S. apply IH. cbn [String.length] in H. lia.
Qed.

Lemma drop_all_CRLF (s : string) : drop (String.length s + 2) (s ++ CRLF) = "".
Proof.
  induction s as [|c s IH]; [reflexivity|].
  cbn [String.length append Nat.add]. rewrite drop_S. exact IH.
Qed.

Lemma genSplit_empty (n : nat) : genSplit n "" CRLF = [""].
Proof. destruct n; reflexivity. Qed.

Lemma count_from_none (fuel : nat) (s sep : string) :
  Index s sep = None -> count_from fuel s sep = O.
Proof. intros E. destruct fuel; cbn [count_from]; [|rewrite E]; reflexivity. Qed.

Lemma genSplit_last_CRLF (f1 : nat) (s : string) :
  Index s CRLF = None ->
  genSplit (count_from (S f1) (s ++ CRLF) CRLF) (s ++ CRLF) CRLF = [s; ""].
Proof.
  intros E. cbn [count_from]. rewrite (Index_app_CRLF s E).
  cbn [genSplit]. rewrite (Index_app_CRLF s E).
  change (String.length CRLF) with 2%nat.
  rewrite drop_all_CRLF, genSplit_empty.
  rewrite substring_0_app by lia. rewrite substring_whole. reflexivity.
Qed.

Lemma genSplit_app_CRLF (f2 : nat) (s : string) (f1 : nat) :
  (String.length s <= f2)%nat ->
  (String.length s + 2 <= f1)%nat ->
  genSplit (count_from f1 (s ++ CRLF) CRLF) (s ++ CRLF) CRLF =
  genSplit (count_from f2 s CRLF) s CRLF ++ [""].
Proof.
  revert s f1. induction f2 as [|f2 IH]; intros s f1 H2 H1;
    (destruct f1 as [|f1]; [lia|]);
    destruct (Index s CRLF) as [m|] eqn:E.
  - pose proof (Index_bound _ _ _ E) as Hb.
    change (String.length CRLF) with 2%nat in Hb. lia.
  - rewrite (genSplit_last_CRLF f1 s E), (count_from_none 0 s CRLF E). reflexivity.
  - pose proof (Index_bound _ _ _ E) as Hb.
    change (String.length CRLF) with 2%nat in Hb.
    cbn [count_from]. rewrite E, (Index_app s CRLF CRLF m E).
    cbn [genSplit]. rewrite E, (Index_app s CRLF CRLF m E).
    change (String.length CRLF) with 2%nat.
    rewrite substring_0_app by lia.
    rewrite drop_app by lia.
    rewrite <- app_comm_cons. f_equal.
    apply IH; rewrite drop_length; lia.
  - rewrite (genSplit_last_CRLF f1 s E), (count_from_none (S f2) s CRLF E). reflexivity.
Qed.

Lemma Split_app_CRLF (s : string) : Split (s ++ CRLF) CRLF = Split s CRLF ++ [""].
Proof.
  unfold Split, Count. apply genSplit_app_CRLF; [lia|].
  rewrite append_length. change (String.length CRLF) with 2%nat. lia.
Qed.

(** A body in which every line is ended by CRLF has an empty last line.
    When nothing in it matches, the loop reaches that line and the lookup
    panics; when a line with a colon matches, the lookup returns what it
    returns without the final CRLF. *)
Theorem IsPwned_final_CRLF :
  (forall (net : network) (password body : string) (w : World),
      answers net password (body ++ CRLF) ->
      Forall (passed_over (fingerprint password)) (Split body CRLF) ->
      fst (IsPwned net password w) = Panicked (IndexOutOfRange 1 1)) /\
  (forall (net1 net2 : network) (password body : string) (w1 w2 : World)
          (pre : list string) (line : string) (post : list string),
      answers net1 password body ->
      answers net2 password (body ++ CRLF) ->
      Split body CRLF = pre ++ line :: post ->
      has_separator line = true ->
      matches (fingerprint password) line = true ->
      fst (IsPwned net2 password w2) = fst (IsPwned net1 password w1)).
Proof.
  split.
  - intros net password body w Hnet Hall.
    rewrite (IsPwned_answered net password _ w Hnet). cbn [fst].
    rewrite Split_app_CRLF, (scan_passed_over _ _ _ Hall).
    apply scan_cons_no_separator. reflexivity.
  - intros net1 net2 password body w1 w2 pre line post H1 H2 E Hsep Hm.
    apply (IsPwned_congr net2 net1 password _ _ w2 w1 H2 H1).
    rewrite Split_app_CRLF, E, <- app_assoc, <- app_comm_cons.
    apply scan_congr, scan_after_match; assumption.
Qed.

(** The panic, on a body of two lines that do not match "password", each
    ended by CRLF. *)
Lemma IsPwned_final_CRLF_witness :
  fst (IsPwned
         (serve (("0018A45C4D1DEF81644B54AB7F969B88D65:1" ++ CRLF ++
                  "011053FD0102E94D6AE2F8B83D76FAF94F6:1") ++ CRLF))
         "password" world0) = Panicked (IndexOutOfRange 1 1).
Proof.
  apply (proj1 IsPwned_final_CRLF
           (serve (("0018A45C4D1DEF81644B54AB7F969B88D65:1" ++ CRLF ++
                    "011053FD0102E94D6AE2F8B83D76FAF94F6:1") ++ CRLF))
           "password"
           ("0018A45C4D1DEF81644B54AB7F969B88D65:1" ++ CRLF ++
            "011053FD0102E94D6AE2F8B83D76FAF94F6:1")%string
           world0).
  - reflexivity.
  - assert (E : Split ("0018A45C4D1DEF81644B54AB7F969B88D65:1" ++ CRLF ++
                       "011053FD0102E94D6AE2F8B83D76FAF94F6:1") CRLF =
                ["0018A45C4D1DEF81644B54AB7F969B88D65:1";
                 "011053FD0102E94D6AE2F8B83D76FAF94F6:1"])
      by (vm_compute; reflexivity).
    rewrite E. repeat constructor; vm_compute; reflexivity.
Defined.

(** ** The counts [ParseUint] accepts *)

(** In base 10 on 64 bits [ParseUint] succeeds exactly on the non-empty
    texts of decimal digits whose value is below 2^64, leading zeros
    allowed, and then returns that value. *)
Theorem ParseUint_accepts_iff (s : string) (v : Z) :
  ParseUint s 10 64 = (v, None) <->
  is_numeral s = true /\ numeral_value s = v /\ v < 2 ^ 64.
Proof.
  split.
  - intros H. destruct (is_numeral s) eqn:Hnum.
    + rewrite (ParseUint_numeral s Hnum) in H.
      destruct (numeral_value s <? 2 ^ 64) eqn:E; [|discriminate].
      injection H as <-. repeat split. lia.
    + destruct (ParseUint_not_numeral s Hnum) as (v' & k & E).
      rewrite E in H. discriminate.
  - intros (Hnum & <- & Hfit). rewrite (ParseUint_numeral s Hnum).
    destruct (numeral_value s <? 2 ^ 64) eqn:E; [reflexivity | lia].
Qed.

(** The same, on the largest count and on a count with leading zeros. *)
Lemma ParseUint_accepts_iff_witness :
  ParseUint "18446744073709551615" 10 64 = (18446744073709551615, None) /\
  ParseUint "000042" 10 64 = (42, None).
Proof.
  split.
  - apply (proj2 (ParseUint_accepts_iff "18446744073709551615" 18446744073709551615)).
    repeat split.
  - apply (proj2 (ParseUint_accepts_iff "000042" 42)).
    repeat split.
Defined.

(** ** What the service sees *)



(** ** The hash text determines the digest *)

Lemma hexval_digit (n : Z) :
  0 <= n < 16 -> hexval (to_upper_byte (digit n)) = n.
Proof.
  intros Hn. rewrite <- (Z2Nat.id n) at 2 by lia. unfold digit.
  assert (Hk : (Z.to_nat n < 16)%nat) by lia.
  generalize dependent (Z.to_nat n). intros k Hk.
  do 16 (destruct k as [|k]; [reflexivity|]). lia.
Qed.

Lemma byte_nibbles (c : Z) : is_byte c -> 16 * Z.shiftr c 4 + Z.land c 15 = c.
Proof.
  unfold is_byte. intros Hc. rewrite Z.shiftr_div_pow2 by lia.
  change 15 with (Z.ones 4). rewrite Z.land_ones by lia.
  change (2 ^ 4) with 16. symmetry. apply Z.div_mod. lia.
Qed.

Lemma unhex_ToUpper_Sprintf_x (b : list Z) :
  Forall is_byte b -> unhex (ToUpper (Sprintf_x b)) = b.
Proof.
  induction 1 as [|c b Hc Hb IH]; [reflexivity|].
  cbn [Sprintf_x ToUpper unhex].
  rewrite (hexval_digit _ (high_nibble c Hc)), (hexval_digit _ (low_nibble c)).
  rewrite (byte_nibbles c Hc), IH. reflexivity.
Qed.

(** Read back as hexadecimal, the hash text of a password is its twenty
    digest bytes; hence two passwords have the same hash text exactly when
    they have the same SHA-1 digest. *)
Theorem Hash_spells_digest (p1 p2 : string) :
  unhex (Hash (fingerprint p1)) = sha1.Sum (WriteString sha1.New p1) [] /\
  (Hash (fingerprint p1) = Hash (fingerprint p2) <->
   sha1.Sum (WriteString sha1.New p1) [] = sha1.Sum (WriteString sha1.New p2) []).
Proof.
  assert (R : forall p, unhex (Hash (fingerprint p)) = sha1.Sum (WriteString sha1.New p) []).
  { intros p. cbn [fingerprint Hash]. unfold hex_digest.
    apply unhex_ToUpper_Sprintf_x. unfold sha1.Sum. cbn [app]. apply checkSum_bytes. }
  split; [apply R|]. split; intros H.
  - rewrite <- !R, H. reflexivity.
  - cbn [fingerprint Hash]. unfold hex_digest. rewrite H. reflexivity.
Qed.

(** ** The digest consumes whole chunks *)










(** ** The order of the lines *)

Lemma scan_find (hash : pwnedHash) (lines : list string) :
  Forall (fun line => has_separator line = true) lines ->
  scan hash lines =
  match find (matches hash) lines with
  | Some line => Returned (on_match (count_field line))
  | None => Returned not_found
  end.
Proof.
  induction 1 as [|line lines Hsep _ IH]; [reflexivity|].
  rewrite (scan_cons hash line lines Hsep). cbn [find].
  destruct (matches hash line); [reflexivity | exact IH].
Qed.

Lemma scan_permuted (hash : pwnedHash) (lines1 lines2 : list string) :
  Permutation lines1 lines2 ->
  Forall (fun line => has_separator line = true) lines1 ->
  (forall l l', In l lines1 -> In l' lines1 ->
                matches hash l = true -> matches hash l' = true ->
                count_field l = count_field l') ->
  scan hash lines1 = scan hash lines2.
Proof.
  intros Hperm Hsep Hsame.
  rewrite (scan_find hash lines1 Hsep).
  rewrite (scan_find hash lines2 (Permutation_Forall Hperm Hsep)).
  destruct (find (matches hash) lines1) as [l1|] eqn:E1;
    destruct (find (matches hash) lines2) as [l2|] eqn:E2.
  - apply find_some in E1 as [In1 M1]. apply find_some in E2 as [In2 M2].
    apply (Permutation_in _ (Permutation_sym Hperm)) in In2.
    rewrite (Hsame l1 l2 In1 In2 M1 M2). reflexivity.
  - apply find_some in E1 as [In1 M1].
    apply (Permutation_in _ Hperm) in In1.
    rewrite (find_none _ _ E2 l1 In1) in M1. discriminate.
  - apply find_some in E2 as [In2 M2].
    apply (Permutation_in _ (Permutation_sym Hperm)) in In2.
    rewrite (find_none _ _ E1 l2 In2) in M2. discriminate.
  - reflexivity.
Qed.

(** When every line of a body has a colon and the lines that match, if
    there are several, carry the same count field, the order of the lines
    does not matter: a body with the same lines in another order gives the
    same outcome. *)
Theorem IsPwned_order_irrelevant
        (net1 net2 : network) (password body1 body2 : string) (w1 w2 : World) :
  answers net1 password body1 ->
  answers net2 password body2 ->
  Permutation (Split body1 CRLF) (Split body2 CRLF) ->
  Forall (fun line => has_separator line = true) (Split body1 CRLF) ->
  (forall l l', In l (Split body1 CRLF) -> In l' (Split body1 CRLF) ->
                matches (fingerprint password) l = true ->
                matches (fingerprint password) l' = true ->
                count_field l = count_field l') ->
  fst (IsPwned net1 password w1) = fst (IsPwned net2 password w2).
Proof.
  intros H1 H2 Hperm Hsep Hsame.
  apply (IsPwned_congr net1 net2 password body1 body2 w1 w2 H1 H2).
  apply scan_permuted; assumption.
Qed.

(** The same, on two lines, of which the second matches "password", and
    on the two lines swapped. *)
Lemma IsPwned_order_irrelevant_witness :
  fst (IsPwned (serve ("0018A45C4D1DEF81644B54AB7F969B88D65:1" ++ CRLF ++
                       "1E4C9B93F3F0682250B6CF8331B7EE68FD8:5")) "password" world0) =
  fst (IsPwned (serve ("1E4C9B93F3F0682250B6CF8331B7EE68FD8:5" ++ CRLF ++
                       "0018A45C4D1DEF81644B54AB7F969B88D65:1")) "password" world0).
Proof.
  assert (E1 : Split ("0018A45C4D1DEF81644B54AB7F969B88D65:1" ++ CRLF ++
                      "1E4C9B93F3F0682250B6CF8331B7EE68FD8:5") CRLF =
               ["0018A45C4D1DEF81644B54AB7F969B88D65:1";
                "1E4C9B93F3F0682250B6CF8331B7EE68FD8:5"])
    by (vm_compute; reflexivity).
  assert (E2 : Split ("1E4C9B93F3F0682250B6CF8331B7EE68FD8:5" ++ CRLF ++
                      "0018A45C4D1DEF81644B54AB7F969B88D65:1") CRLF =
               ["1E4C9B93F3F0682250B6CF8331B7EE68FD8:5";
                "0018A45C4D1DEF81644B54AB7F969B88D65:1"])
    by (vm_compute; reflexivity).
  apply (IsPwned_order_irrelevant
           (serve ("0018A45C4D1DEF81644B54AB7F969B88D65:1" ++ CRLF ++
                   "1E4C9B93F3F0682250B6CF8331B7EE68FD8:5"))
           (serve ("1E4C9B93F3F0682250B6CF8331B7EE68FD8:5" ++ CRLF ++
                   "0018A45C4D1DEF81644B54AB7F969B88D65:1"))
           "password"
           ("0018A45C4D1DEF81644B54AB7F969B88D65:1" ++ CRLF ++
            "1E4C9B93F3F0682250B6CF8331B7EE68FD8:5")
           ("1E4C9B93F3F0682250B6CF8331B7EE68FD8:5" ++ CRLF ++
            "0018A45C4D1DEF81644B54AB7F969B88D65:1")
           world0 world0).
  - reflexivity.
  - reflexivity.
  - rewrite E1, E2. apply perm_swap.
  - rewrite E1. repeat constructor.
  - rewrite E1. intros l l' [<-|[<-|[]]] [<-|[<-|[]]] M M';
      try reflexivity; vm_compute in M; vm_compute in M'; discriminate.
Defined.
